(** * ascii-wiki: the Gemini service wrapper

    A shallow embedding of the service module of the application
    (getAi, streamDefinition, getRandomWord, generateAsciiArt) and the
    properties of its retry, validation and streaming logic.

    Strings are JavaScript strings: sequences of UTF-16 code units.
    Asynchronous calls are sequential here: every [await] is a step of
    a state-and-exception monad over a world that records the network
    calls made and the console output. *)

From Stdlib Require Import String Ascii DecimalString.
From Stdlib Require Import NArith ZArith Bool Arith Lia List.
Import ListNotations.

Set Warnings "-register-all".

Set Implicit Arguments.

(** ** JavaScript strings *)

Module JsString.

(** A string is its list of UTF-16 code units. *)
Definition jsstring := list N.

(** An ASCII literal as a JavaScript string. *)
Fixpoint str (s : string) : jsstring :=
  match s with
  | EmptyString => []
  | String c r => N_of_ascii c :: str r
  end.

(** The code units of a code point: itself, or a surrogate pair. *)
Definition codeUnits (cp : N) : jsstring :=
  if (cp <? 65536)%N then [cp]
  else [(55296 + (cp - 65536) / 1024)%N; (56320 + (cp - 65536) mod 1024)%N].

(** UTF-8 text as a JavaScript string. [pending] holds the bits read
    of a code point that still needs [more] continuation bytes. *)
Fixpoint utf8 (pending : N) (more : nat) (s : string) : jsstring :=
  match s with
  | EmptyString => []
  | String c r =>
      let b := N_of_ascii c in
      match more with
      | O =>
          if (b <? 128)%N then b :: utf8 0 0 r
          else if (b <? 224)%N then utf8 (b - 192) 1 r
          else if (b <? 240)%N then utf8 (b - 224) 2 r
          else utf8 (b - 240) 3 r
      | S O => codeUnits (pending * 64 + b mod 64) ++ utf8 0 0 r
      | S m => utf8 (pending * 64 + b mod 64) m r
      end
  end.

(** A literal with characters outside ASCII, written in this file in
    UTF-8. *)
Definition unicode (s : string) : jsstring := utf8 0 0 s.

Definition dq : jsstring := [34%N].   (* the double quote *)
Definition bs : jsstring := [92%N].   (* the backslash *)
Definition nl : jsstring := [10%N].   (* the line feed *)

Fixpoint eqb (a b : jsstring) : bool :=
  match a, b with
  | [], [] => true
  | x :: a', y :: b' => N.eqb x y && eqb a' b'
  | _, _ => false
  end.

(** WhiteSpace and LineTerminator code units of ECMAScript: what
    [String.prototype.trim] removes and what [\s] matches. *)
Definition isWhiteSpace (c : N) : bool :=
  ((9 <=? c) && (c <=? 13) || (c =? 32) || (c =? 160) || (c =? 5760)
   || (8192 <=? c) && (c <=? 8202) || (c =? 8232) || (c =? 8233)
   || (c =? 8239) || (c =? 8287) || (c =? 12288) || (c =? 65279))%N.

Fixpoint trimStart (s : jsstring) : jsstring :=
  match s with
  | c :: r => if isWhiteSpace c then trimStart r else s
  | [] => []
  end.

Fixpoint trimEnd (s : jsstring) : jsstring :=
  match s with
  | c :: r =>
      match trimEnd r with
      | [] => if isWhiteSpace c then [] else [c]
      | d :: r' => c :: d :: r'
      end
  | [] => []
  end.

(** [s.trim()] *)
Definition trim (s : jsstring) : jsstring := trimEnd (trimStart s).

(** [s.startsWith(p)], and the rest of [s] after [p]. *)
Fixpoint stripPrefix (p s : jsstring) : option jsstring :=
  match p, s with
  | [], _ => Some s
  | x :: p', y :: s' => if N.eqb x y then stripPrefix p' s' else None
  | _ :: _, [] => None
  end.

Definition startsWith (p s : jsstring) : bool :=
  match stripPrefix p s with Some _ => true | None => false end.

(** [s.endsWith(p)], and the part of [s] before [p]. *)
Definition stripSuffix (p s : jsstring) : option jsstring :=
  match stripPrefix (rev p) (rev s) with
  | Some r => Some (rev r)
  | None => None
  end.

Definition endsWith (p s : jsstring) : bool :=
  match stripSuffix p s with Some _ => true | None => false end.

(** The decimal numeral of a number, as a template literal prints it. *)
Definition decimal (n : nat) : jsstring :=
  str (NilEmpty.string_of_uint (Nat.to_uint n)).

End JsString.
Import JsString.

(** ** Regular expressions

    The fragment of ECMAScript patterns that the fence pattern uses,
    with the backtracking matcher of the language: each construct takes
    the continuation that matches the rest of the pattern, and tries
    its alternatives in priority order. *)

Module Regex.

Inductive re : Type :=
| Empty                       (* the empty pattern *)
| Bol                         (* ^ without the m flag *)
| Eol                         (* $ without the m flag *)
| Char (c : N)                (* one literal code unit *)
| Opt (r : re)                (* (?:r)? greedy *)
| Star (p : N -> bool)        (* p* greedy, p a character class *)
| LazyStar (p : N -> bool)    (* p*? *)
| Group (r : re)              (* ( r ), the one capture group *)
| Seq (r1 r2 : re).

(** A matcher state: the input still to read, the index reached and
    the capture of group 1. *)
Record state : Type := State {
  rest : jsstring;
  endIndex : nat;
  capture : option jsstring
}.

Definition continuation := state -> option state.

Fixpoint starGreedy (p : N -> bool) (s : jsstring) (i : nat)
    (cap : option jsstring) (k : continuation) : option state :=
  match s with
  | c :: s' =>
      if p c then
        match starGreedy p s' (S i) cap k with
        | Some x => Some x
        | None => k (State s i cap)
        end
      else k (State s i cap)
  | [] => k (State s i cap)
  end.

Fixpoint starLazy (p : N -> bool) (s : jsstring) (i : nat)
    (cap : option jsstring) (k : continuation) : option state :=
  match k (State s i cap) with
  | Some x => Some x
  | None =>
      match s with
      | c :: s' => if p c then starLazy p s' (S i) cap k else None
      | [] => None
      end
  end.

Fixpoint matcher (r : re) (x : state) (k : continuation) : option state :=
  match r with
  | Empty => k x
  | Bol => if Nat.eqb (endIndex x) 0 then k x else None
  | Eol => match rest x with [] => k x | _ :: _ => None end
  | Char c =>
      match rest x with
      | d :: s' =>
          if N.eqb c d then k (State s' (S (endIndex x)) (capture x))
          else None
      | [] => None
      end
  | Opt r1 =>
      match matcher r1 x k with
      | Some y => Some y
      | None => k x
      end
  | Star p => starGreedy p (rest x) (endIndex x) (capture x) k
  | LazyStar p => starLazy p (rest x) (endIndex x) (capture x) k
  | Group r1 =>
      matcher r1 x (fun y =>
        k (State (rest y) (endIndex y)
             (Some (firstn (endIndex y - endIndex x) (rest x)))))
  | Seq r1 r2 => matcher r1 x (fun y => matcher r2 y k)
  end.

(** A literal string. *)
Fixpoint lit (s : jsstring) : re :=
  match s with
  | [] => Empty
  | c :: s' => Seq (Char c) (lit s')
  end.

(** [s.match(r)] for a pattern without the g flag: the first start
    index, from 0 on, at which the pattern matches; the result is the
    capture of group 1, [None] inside when the group took no part. *)
Fixpoint search (r : re) (s : jsstring) (i : nat) : option (option jsstring) :=
  match matcher r (State s i None) (fun y => Some y) with
  | Some y => Some (capture y)
  | None =>
      match s with
      | _ :: s' => search r s' (S i)
      | [] => None
      end
  end.

Definition exec (r : re) (s : jsstring) : option (option jsstring) :=
  search r s 0.

End Regex.

(** ** Values, exceptions and the world *)

(** A JavaScript value as [JSON.parse] can produce it. A number is the
    bit pattern of its IEEE 754 binary64 representation. *)
Inductive jsvalue : Type :=
| VUndefined
| VNull
| VBool (b : bool)
| VNumber (bits : N)
| VString (s : jsstring)
| VArray (items : list jsvalue)
| VObject (props : list (jsstring * jsvalue)).

(** What a [throw] carries: an [Error] (of any subclass) with its
    message, or some other value. *)
Inductive jsexn : Type :=
| JsError (message : jsstring)
| JsThrown (v : jsvalue).

(** ToBoolean. A number is falsy when it is +0, -0 or a NaN. *)
Definition numberIsZero (bits : N) : bool :=
  (N.land bits 0x7FFFFFFFFFFFFFFF =? 0)%N.

Definition numberIsNaN (bits : N) : bool :=
  ((N.land (N.shiftr bits 52) 0x7FF =? 0x7FF)
   && negb (N.land bits 0xFFFFFFFFFFFFF =? 0))%N.

Definition truthy (v : jsvalue) : bool :=
  match v with
  | VUndefined | VNull => false
  | VBool b => b
  | VNumber bits => negb (numberIsZero bits || numberIsNaN bits)
  | VString s => negb (JsString.eqb s [])
  | VArray _ | VObject _ => true
  end.

(** The own property [name] of an object literal. *)
Fixpoint lookup (name : jsstring) (props : list (jsstring * jsvalue)) : option jsvalue :=
  match props with
  | (k, v) :: more => if JsString.eqb k name then Some v else lookup name more
  | [] => None
  end.

(** [!apiKey] for a key that may be absent. *)
Definition missing (apiKey : option jsstring) : bool :=
  match apiKey with
  | Some (_ :: _) => false
  | Some [] | None => true
  end.

(** The SDK's client, request and response objects. *)
Record GoogleGenAI : Type := { clientKey : jsstring }.

Record GenerationConfig : Type := {
  responseMimeType : option jsstring;
  thinkingBudget : option Z
}.

Record GenerateContentParameters : Type := {
  model : jsstring;
  contents : jsstring;
  config : GenerationConfig
}.

(** [response.text] and [chunk.text] are [string | undefined]. *)
Record GenerateContentResponse : Type := { responseText : option jsstring }.

(** A response stream: chunks, then the end or a failure. *)
Inductive ResponseStream : Type :=
| StreamEnd
| StreamFail (e : jsexn)
| StreamChunk (chunk : GenerateContentResponse) (more : ResponseStream).

Inductive NetworkCall : Type :=
| GenerateContent (ai : GoogleGenAI) (params : GenerateContentParameters)
| GenerateContentStream (ai : GoogleGenAI) (params : GenerateContentParameters).

Inductive ConsoleEntry : Type :=
| ConsoleWarn (label detail : jsstring)
| ConsoleError (label : jsstring) (error : option jsexn).

(** The observable effects of the module, oldest first. *)
Record World : Type := {
  network : list NetworkCall;
  console : list ConsoleEntry
}.

Definition networkCalls (w : World) : nat := length (network w).

Definition sent (c : NetworkCall) (w : World) : World :=
  {| network := network w ++ [c]; console := console w |}.

Definition logged (e : ConsoleEntry) (w : World) : World :=
  {| network := network w; console := console w ++ [e] |}.

(** ** The monad of asynchronous code: world state and exceptions *)

Definition Exc (A : Type) : Type := (jsexn + A)%type.

Definition M (A : Type) : Type := World -> Exc A * World.

Definition ret {A} (a : A) : M A := fun w => (inr a, w).

Definition throw {A} (e : jsexn) : M A := fun w => (inl e, w).

Definition bind {A B} (m : M A) (f : A -> M B) : M B :=
  fun w =>
    match m w with
    | (inr a, w') => f a w'
    | (inl e, w') => (inl e, w')
    end.

(** [try { m } catch (error) { h error }] *)
Definition tryCatch {A} (m : M A) (h : jsexn -> M A) : M A :=
  fun w =>
    match m w with
    | (inr a, w') => (inr a, w')
    | (inl e, w') => h e w'
    end.

Definition liftExc {A} (x : Exc A) : M A := fun w => (x, w).

Definition consoleWarn (label detail : jsstring) : M unit :=
  fun w => (inr tt, logged (ConsoleWarn label detail) w).

Definition consoleError (label : jsstring) (error : option jsexn) : M unit :=
  fun w => (inr tt, logged (ConsoleError label error) w).

Declare Scope js_scope.
Delimit Scope js_scope with js.
Notation "x <- m ;; k" := (bind m (fun x => k))
  (at level 61, m at next level, right associativity) : js_scope.
Notation "m ;;; k" := (bind m (fun _ => k))
  (at level 61, right associativity) : js_scope.
Notation "s1 +++ s2" := (@app N s1 s2)
  (at level 60, right associativity) : js_scope.
Open Scope js_scope.

(** ** The service module *)

Definition artModelName : jsstring := str "gemini-2.5-flash".
Definition textModelName : jsstring := str "gemini-2.5-flash".

Definition ENABLE_THINKING_FOR_ASCII_ART : bool := false.
Definition ENABLE_ASCII_TEXT_GENERATION : bool := false.

(** [text] is optional, and holds whatever the parsed response had:
    the cast to [AsciiArtData] checks nothing at run time. *)
Record AsciiArtData : Type := {
  art : jsstring;
  text : option jsvalue
}.

Definition maxRetries : nat := 3.

(** [/^```(?:json)?\s*\n?(.*?)\n?\s*```$/s] *)
Definition fenceRegex : Regex.re :=
  let fence := Regex.lit (str "```") in
  Regex.Seq Regex.Bol
    (Regex.Seq fence
    (Regex.Seq (Regex.Opt (Regex.lit (str "json")))
    (Regex.Seq (Regex.Star isWhiteSpace)
    (Regex.Seq (Regex.Opt (Regex.Char 10))
    (Regex.Seq (Regex.Group (Regex.LazyStar (fun _ => true)))
    (Regex.Seq (Regex.Opt (Regex.Char 10))
    (Regex.Seq (Regex.Star isWhiteSpace)
    (Regex.Seq fence Regex.Eol)))))))).

(** [error instanceof Error ? error.message : fallback] *)
Definition messageOr (fallback : jsstring) (error : jsexn) : jsstring :=
  match error with
  | JsError m => m
  | JsThrown _ => fallback
  end.

(** Lines 121-270: the style directive of the prompt. *)
Definition styleInstructionFor (style topic : jsstring) : jsstring :=
  if JsString.eqb style (str "Detailed") then
    nl +++ str "  - Style: Detailed and intricate." +++ nl
    +++ unicode "  - Use a wide palette of characters (│─┌┐└┘├┤┬┴┼►◄▲▼○●◐◑░▒▓█▀▄■□▪▫★☆♦♠♣♥⟨⟩/"
    +++ bs +++ str "_|) to create shading, texture, and depth." +++ nl
    +++ str "  - Shape mirrors concept - make the visual form embody the word's essence with high fidelity."
  else if JsString.eqb style (str "Blocky") then
    nl +++ str "  - Style: Bold and blocky, similar to pixel art." +++ nl
    +++ unicode "  - Palette: Primarily use solid block characters (█, ▀, ▄, ▓, ▒, ░) and simple geometric shapes."
    +++ nl
    +++ str "  - Shape mirrors concept - create a strong, graphic representation of the word's essence."
  else if JsString.eqb style (str "Abstract") then
    nl +++ str "  - Style: Abstract and evocative. The concept " +++ dq
    +++ topic +++ dq +++ str " is abstract." +++ nl
    +++ str "  - Do not create a literal depiction. Instead, generate an abstract ASCII pattern that evokes the *feeling* or *essence* of the word."
    +++ nl
    +++ str "  - Focus on texture, flow, rhythm, and symbolic representation using a creative mix of characters."
  else if JsString.eqb style (str "Pixelated") then
    nl +++ str "  - Style: Low-resolution pixel art." +++ nl
    +++ unicode "  - Palette: Primarily use solid block characters (█, ▀, ▄, ▓, ▒, ░)."
    +++ nl
    +++ str "  - Focus on creating a clear but blocky, aliased representation of the concept."
  else if JsString.eqb style (str "Line Art") then
    nl +++ str "  - Style: Clean and simple line art." +++ nl
    +++ unicode "  - Palette: Exclusively use line-drawing characters (│, ─, ┌, ┐, └, ┘, /, "
    +++ bs +++ str ", _, -)." +++ nl
    +++ str "  - Focus on outlines and contours, not shading. Emphasize clarity and simplicity."
  else if JsString.eqb style (str "Grunge") then
    nl +++ str "  - Style: Messy, chaotic, and textured." +++ nl
    +++ str "  - Palette: Use a dense, chaotic mix of varied characters (#, @, %, &, *, $, !, ?) to create a distressed, dirty, and worn-out feel."
    +++ nl +++ str "  - Overlapping and asymmetry are key."
  else if JsString.eqb style (str "Glitch") then
    nl +++ str "  - Style: Digital glitch effect." +++ nl
    +++ str "  - Create the image as if it's a corrupted file. Use repeating characters, broken lines, horizontal shifts, and random "
    +++ dq +++ str "noise" +++ dq +++ str " characters to disrupt the form."
  else if JsString.eqb style (str "Blueprint") then
    nl +++ str "  - Style: Technical schematic or blueprint." +++ nl
    +++ unicode "  - Palette: Use simple lines (─, │, +), circles (o), and angles to create a diagrammatic look. Add annotations or measurement-like details."
  else if JsString.eqb style (str "Calligraphy") then
    nl +++ str "  - Style: Elegant and flowing, like calligraphy." +++ nl
    +++ str "  - Palette: Use characters that create smooth curves and varied line weights (e.g., S, s, ~, O, o, C, c)."
    +++ nl
    +++ str "  - The final art should feel like it was drawn with a brush."
  else if JsString.eqb style (str "Doodle") then
    nl +++ str "  - Style: Hand-drawn, sketchy, and informal." +++ nl
    +++ str "  - Palette: Use simple, rounded characters (o, c, u, ~) and casual lines."
    +++ nl +++ str "  - The art should look spontaneous and playful."
  else if JsString.eqb style (str "Hatching") then
    nl +++ str "  - Style: Shading with parallel lines." +++ nl
    +++ str "  - Palette: Primarily use slashes (/, " +++ bs
    +++ str "), vertical bars (|), and hyphens (-) in patterns to create depth and texture."
    +++ nl +++ str "  - Vary the density of lines for shading."
  else if JsString.eqb style (str "Stipple") then
    nl +++ str "  - Style: Pointillism." +++ nl
    +++ str "  - Create the image entirely from dots and small characters. Palette: Use periods (.), colons (:), asterisks (*), and other small marks."
    +++ nl +++ str "  - Vary the density of points to create shading."
  else if JsString.eqb style (str "8-Bit") then
    nl +++ str "  - Style: Retro 8-bit video game sprite." +++ nl
    +++ unicode "  - Palette: Use block characters (█, ▀, ▄) and a very limited, chunky resolution."
    +++ nl
    +++ str "  - The result should look like a character or object from an old video game."
  else if JsString.eqb style (str "Halftone") then
    nl +++ str "  - Style: Printed halftone pattern." +++ nl
    +++ str "  - Create shading using characters of different visual densities. Palette: Use a gradient of characters from light to dark (e.g., . , : , o , O , 8 , @ , #)."
  else if JsString.eqb style (str "Typographic") then
    nl +++ str "  - Style: Typographic art." +++ nl
    +++ str "  - The art is composed of letters, numbers, and symbols that spell out or relate to the topic itself."
    +++ nl
    +++ str "  - The overall shape should represent the topic, while the characters forming it add another layer of meaning."
  else if JsString.eqb style (str "Circuit Board") then
    nl +++ str "  - Style: An electronic circuit board (PCB)." +++ nl
    +++ unicode "  - Palette: Use characters like ─, │, ┐, └, ┘, ┌, o, +, and T to represent traces, components, and solder points."
    +++ nl +++ str "  - Create a dense, technical pattern."
  else if JsString.eqb style (str "Origami") then
    nl +++ str "  - Style: Folded paper origami." +++ nl
    +++ str "  - Use straight lines and triangular/polygonal shapes to create the appearance of folded creases and flat planes."
    +++ nl +++ str "  - Shading should suggest depth from folds."
  else if JsString.eqb style (str "Mosaic") then
    nl +++ str "  - Style: A mosaic made of tiles." +++ nl
    +++ str "  - Palette: Use a variety of different characters as " +++ dq
    +++ str "tiles" +++ dq +++ str " (e.g., #, O, +, *, $, &)." +++ nl
    +++ str "  - Arrange them in a grid-like or organic pattern to form the image."
  else if JsString.eqb style (str "Sketch") then
    nl +++ str "  - Style: A rough, unfinished pencil sketch." +++ nl
    +++ str "  - Use light characters and visible " +++ dq
    +++ str "construction lines" +++ dq +++ str "." +++ nl
    +++ str "  - The art should look like a work-in-progress, with overlapping lines and a lack of sharp definition."
  else if JsString.eqb style (str "Stencil") then
    nl +++ str "  - Style: A spray-painted stencil." +++ nl
    +++ str "  - The image should have sharp, defined edges but with characteristic breaks or "
    +++ dq +++ str "bridges" +++ dq
    +++ str " in the lines, as if cut from a physical stencil."
  else if JsString.eqb style (str "Psychedelic") then
    nl +++ str "  - Style: Trippy and surreal." +++ nl
    +++ str "  - Use swirling patterns, distorted shapes, and characters that create a sense of movement and vibration."
    +++ nl +++ str "  - Focus on flowing, organic, and mind-bending forms."
  else if JsString.eqb style (str "Art Deco") then
    nl +++ str "  - Style: 1920s Art Deco." +++ nl
    +++ str "  - Emphasize bold geometric shapes, strong vertical lines, symmetry, and decorative, stylized forms."
    +++ nl
    +++ str "  - Use characters that create sharp angles and clean curves."
  else if JsString.eqb style (str "Gothic") then
    nl +++ str "  - Style: Gothic architecture and art." +++ nl
    +++ str "  - Use pointed arches, sharp angles, and intricate, spiky details."
    +++ nl
    +++ str "  - The mood should be dark and ornate. Palette: Use characters like V, A, Y, T, |, +, #."
  else if JsString.eqb style (str "Vaporwave") then
    nl +++ str "  - Style: 80s/90s retro-futurism (Vaporwave)." +++ nl
    +++ str "  - Think neon grids, palm trees, and classical statues. Use characters that can create a glowing or wireframe effect."
    +++ nl +++ str "  - A sense of digital nostalgia is key."
  else
    nl +++ str "  - Style: Minimalist and clean." +++ nl
    +++ unicode "  - Palette: Use a limited set of simple characters (│─┌┐└┘_ /"
    +++ bs
    +++ str "|) to create elegant lines and shapes. Emphasize negative space."
    +++ nl
    +++ str "  - Shape mirrors concept - distill the word's essence into its simplest visual form.".

(** ** A concrete run-time system for the examples *)

Module Sample.

Definition typeErrorMessage (v : jsvalue) (name : jsstring) : jsstring :=
  str "Cannot read properties of "
  +++ match v with VNull => str "null" | _ => str "undefined" end
  +++ str " (reading '" +++ name +++ str "')".

(** The JSON text of an object with one string member. *)
Definition member (key value : jsstring) : jsstring :=
  dq +++ key +++ dq +++ str ":" +++ dq +++ value +++ dq.

Definition catJson : jsstring := str "{" +++ member (str "art") (str "=^.^=") +++ str "}".
Definition blankJson : jsstring := str "{" +++ member (str "art") (str "   ") +++ str "}".
Definition labelledJson : jsstring :=
  str "{" +++ member (str "art") (str "=^.^=") +++ str ","
  +++ member (str "text") (str "CAT") +++ str "}".

(** [JSON.parse] on the texts the examples use; a SyntaxError on
    every other text. *)
Definition JSON_parse (s : jsstring) : Exc jsvalue :=
  if JsString.eqb s catJson then
    inr (VObject [(str "art", VString (str "=^.^="))])
  else if JsString.eqb s blankJson then
    inr (VObject [(str "art", VString (str "   "))])
  else if JsString.eqb s labelledJson then
    inr (VObject [(str "art", VString (str "=^.^="));
                  (str "text", VString (str "CAT"))])
  else inl (JsError (str "Unexpected token in JSON")).

(** A network that answers the n-th call with the n-th entry of a
    script, and fails once the script is over. *)
Definition scripted {A} (script : list (Exc A))
    : nat -> GoogleGenAI -> GenerateContentParameters -> Exc A :=
  fun n _ _ => nth n script (inl (JsError (str "fetch failed"))).

Definition replies (t : jsstring) : Exc GenerateContentResponse :=
  inr {| responseText := Some t |}.

Definition offline : Exc GenerateContentResponse :=
  inl (JsError (str "fetch failed")).

Definition chunk (t : jsstring) : GenerateContentResponse :=
  {| responseText := Some t |}.

Definition start : World := {| network := []; console := [] |}.

Definition key : option jsstring := Some (str "secret").

Definition ai : GoogleGenAI := {| clientKey := str "secret" |}.

(** The cat inside a markdown code block labelled json. *)
Definition fencedCat : jsstring :=
  str "```json" +++ nl +++ catJson +++ nl +++ str "```".

(** A service that answers with prose, then cannot be reached, then
    answers with the cat in a code block. *)
Definition flaky : list (Exc GenerateContentResponse) :=
  [replies (str "Sorry, I cannot draw that."); offline; replies fencedCat].

(** A service that never gives a usable answer. *)
Definition broken : list (Exc GenerateContentResponse) :=
  [offline; replies (str "Sorry, I cannot draw that."); replies blankJson].

(** A service whose first answer has a blank [art]. *)
Definition blankFirst : list (Exc GenerateContentResponse) :=
  [replies blankJson; replies catJson].

(** A stream that delivers one chunk and then breaks. *)
Definition brokenStream : ResponseStream :=
  StreamChunk (chunk (str "A cat is a small "))
    (StreamFail (JsError (str "503 overloaded"))).

(** A stream with chunks that carry no text. *)
Definition sparseStream : ResponseStream :=
  StreamChunk (chunk (str "A cat "))
    (StreamChunk {| responseText := None |}
       (StreamChunk (chunk [])
          (StreamChunk (chunk (str "purrs.")) StreamEnd))).

End Sample.

(** ** The ad banner component

    The effect of the component, run by React when the component is
    mounted, and the clean-up that the effect returns, run when it is
    unmounted. Both start an asynchronous task without awaiting it. *)

Module AdBanner.

(** What the dynamic import of the plugin module gives: the exports
    that the component destructures, each possibly undefined, with the
    two enumeration members that it reads. *)
Record AdMobModule : Type := {
  AdMob : bool;                                (* is the export defined *)
  AdSize_BANNER : option jsvalue;              (* None: AdSize is undefined *)
  AdPosition_BOTTOM_CENTER : option jsvalue    (* None: AdPosition is undefined *)
}.

Record BannerAdOptions : Type := {
  adId : jsstring;
  adSize : jsvalue;
  position : jsvalue;
  margin : Z;
  isTesting : bool
}.

Inductive PluginEvent : Type :=
| Import
| ShowBanner (options : BannerAdOptions)
| HideBanner.

(** The observable effects: the imports and plugin calls started, and
    the entries of [console.error]. *)
Record Device : Type := {
  events : list PluginEvent;
  errors : list (jsstring * jsexn)
}.

(** The host: the platform test of Capacitor, the outcome of the n-th
    event of a run (counted from 0), and the message of the TypeError
    for reading a property of [undefined]. *)
Record Platform : Type := {
  isNativePlatform : bool;
  importAdMob : nat -> Exc AdMobModule;
  showBannerOutcome : nat -> BannerAdOptions -> Exc unit;
  hideBannerOutcome : nat -> Exc unit;
  readOfUndefined : jsstring -> jsstring
}.

Definition Task (A : Type) : Type := Device -> Exc A * Device.

Definition andThen {A B} (t : Task A) (k : A -> Task B) : Task B :=
  fun d =>
    match t d with
    | (inr a, d') => k a d'
    | (inl e, d') => (inl e, d')
    end.

Definition pure {A} (x : Exc A) : Task A := fun d => (x, d).

Definition emit (ev : PluginEvent) (d : Device) : Device :=
  {| events := events d ++ [ev]; errors := errors d |}.

(** [try { body } catch (e) { console.error(label, e) }] *)
Definition tryLogging (body : Task unit) (label : jsstring) : Task unit :=
  fun d =>
    match body d with
    | (inr tt, d') => (inr tt, d')
    | (inl e, d') =>
        (inr tt, {| events := events d'; errors := errors d' ++ [(label, e)] |})
    end.

(** [await import('@capacitor-community/admob')] *)
Definition importModule (p : Platform) : Task AdMobModule :=
  fun d => (importAdMob p (length (events d)), emit Import d).

(** [m.name] for an export [m] that may be undefined. *)
Definition member {A} (p : Platform) (export : option A) (name : jsstring) : Exc A :=
  match export with
  | Some x => inr x
  | None => inl (JsError (readOfUndefined p name))
  end.

Definition adIdValue : jsstring := str "ca-app-pub-1352679620358374/7288031910".

(** Lines 13-35: the task [showBanner]. *)
Definition showBanner (p : Platform) : Task unit :=
  tryLogging
    (andThen (importModule p) (fun m =>
     andThen (pure (member p (AdSize_BANNER m) (str "BANNER"))) (fun size =>
     andThen (pure (member p (AdPosition_BOTTOM_CENTER m) (str "BOTTOM_CENTER")))
       (fun pos =>
     let options :=
       {| adId := adIdValue; adSize := size; position := pos; margin := 0%Z;
          isTesting := true |} in
     andThen (pure (member p (if AdMob m then Some tt else None) (str "showBanner")))
       (fun _ d =>
          (showBannerOutcome p (length (events d)) options,
           emit (ShowBanner options) d))))))
    (str "Error showing banner ad").

(** Lines 42-49: the task that the clean-up starts. *)
Definition hideBanner (p : Platform) : Task unit :=
  tryLogging
    (andThen (importModule p) (fun m =>
     andThen (pure (member p (if AdMob m then Some tt else None) (str "hideBanner")))
       (fun _ d => (hideBannerOutcome p (length (events d)), emit HideBanner d))))
    (str "Error hiding banner ad").

(** What the effect does: the task it starts, and the clean-up it
    returns, as the task that the clean-up starts. *)
Record Effect : Type := {
  spawned : option (Task unit);
  cleanup : option (Task unit)
}.

(** Lines 9-52: the callback of [useEffect]. *)
Definition effect (p : Platform) : Effect :=
  if isNativePlatform p then
    {| spawned := Some (showBanner p); cleanup := Some (hideBanner p) |}
  else {| spawned := None; cleanup := None |}.

Definition run (t : option (Task unit)) : Task unit :=
  match t with
  | Some task => task
  | None => fun d => (inr tt, d)
  end.

(** The device after the task of the mount has run, and after the task
    of the unmount has. *)
Definition mounted (p : Platform) (d : Device) : Device :=
  snd (run (spawned (effect p)) d).

Definition unmounted (p : Platform) (d : Device) : Device :=
  snd (run (cleanup (effect p)) d).

(** A phone on which the plugin works, and one on which the module
    cannot be loaded. *)
Definition working : Platform :=
  {| isNativePlatform := true;
     importAdMob := fun _ =>
       inr {| AdMob := true;
              AdSize_BANNER := Some (VString (str "BANNER"));
              AdPosition_BOTTOM_CENTER := Some (VString (str "BOTTOM_CENTER")) |};
     showBannerOutcome := fun _ _ => inr tt;
     hideBannerOutcome := fun _ => inr tt;
     readOfUndefined := fun name =>
       str "Cannot read properties of undefined (reading '" +++ name +++ str "')" |}.

Definition unloadable : Platform :=
  {| isNativePlatform := true;
     importAdMob := fun _ => inl (JsError (str "Failed to fetch dynamically imported module"));
     showBannerOutcome := fun _ _ => inr tt;
     hideBannerOutcome := fun _ => inr tt;
     readOfUndefined := fun name => name |}.

Definition browser : Platform :=
  {| isNativePlatform := false;
     importAdMob := importAdMob working;
     showBannerOutcome := fun _ _ => inr tt;
     hideBannerOutcome := fun _ => inr tt;
     readOfUndefined := fun name => name |}.

Definition fresh : Device := {| events := []; errors := [] |}.

End AdBanner.

Section Service.

(** The run-time system and the network, which the module only calls:
    [JSON.parse]; the message of the TypeError raised when a property
    is read from [undefined] or [null]; the outcome of the n-th network
    call of a run, counted from 0. *)
Variable JSON_parse : jsstring -> Exc jsvalue.
Variable typeErrorMessage : jsvalue -> jsstring -> jsstring.
Variable generateContent :
  nat -> GoogleGenAI -> GenerateContentParameters -> Exc GenerateContentResponse.
Variable generateContentStream :
  nat -> GoogleGenAI -> GenerateContentParameters -> Exc ResponseStream.

Definition getAi (apiKey : option jsstring) : Exc GoogleGenAI :=
  match apiKey with
  | Some (c :: k) => inr {| clientKey := c :: k |}
  | Some [] | None =>
      inl (JsError (str "API Key is missing. Please provide a valid API key."))
  end.

(** [ai.models.generateContent(params)], awaited. *)
Definition models_generateContent (ai : GoogleGenAI)
    (params : GenerateContentParameters) : M GenerateContentResponse :=
  fun w =>
    (generateContent (networkCalls w) ai params,
     sent (GenerateContent ai params) w).

(** [ai.models.generateContentStream(params)], awaited. *)
Definition models_generateContentStream (ai : GoogleGenAI)
    (params : GenerateContentParameters) : M ResponseStream :=
  fun w =>
    (generateContentStream (networkCalls w) ai params,
     sent (GenerateContentStream ai params) w).

(** Reading property [name] of [v.text] when [v.text] may be undefined. *)
Definition definedText (t : option jsstring) (name : jsstring) : Exc jsstring :=
  match t with
  | Some s => inr s
  | None => inl (JsError (typeErrorMessage VUndefined name))
  end.

(** [parsedData.name] for the names this module reads, [art] and
    [text], which no prototype defines. *)
Definition getField (v : jsvalue) (name : jsstring) : Exc jsvalue :=
  match v with
  | VUndefined | VNull => inl (JsError (typeErrorMessage v name))
  | VObject props =>
      match lookup name props with
      | Some x => inr x
      | None => inr VUndefined
      end
  | VBool _ | VNumber _ | VString _ | VArray _ => inr VUndefined
  end.

Definition noThinking : GenerationConfig :=
  {| responseMimeType := None; thinkingBudget := Some 0%Z |}.

(** *** getRandomWord *)

Definition randomWordPrompt (language : jsstring) : jsstring :=
  str "Generate a single, random, interesting word or a two-word concept in the "
  +++ language
  +++ str " language. It can be a noun, verb, adjective, or a proper noun. Respond with only the word or concept itself, with no extra text, punctuation, or formatting.".

Definition getRandomWord (language : jsstring) (apiKey : option jsstring)
    : M jsstring :=
  ai <- liftExc (getAi apiKey) ;;
  let prompt := randomWordPrompt language in
  tryCatch
    (response <- models_generateContent ai
       {| model := textModelName; contents := prompt; config := noThinking |} ;;
     t <- liftExc (definedText (responseText response) (str "trim")) ;;
     ret (trim t))
    (fun error =>
       consoleError (str "Error getting random word from Gemini:") (Some error) ;;;
       let errorMessage := messageOr (str "An unknown error occurred.") error in
       throw (JsError (str "Could not get random word: " +++ errorMessage))).

(** *** generateAsciiArt *)

Definition artPromptPart (topic language styleInstruction : jsstring) : jsstring :=
  str "1. " +++ dq +++ str "art" +++ dq
  +++ str ": a string containing a meta ASCII visualization of the word "
  +++ dq +++ topic +++ dq +++ str ":" +++ nl
  +++ str "  " +++ styleInstruction +++ nl
  +++ str "  - Examples: " +++ dq +++ str "explosion" +++ dq
  +++ str " -> radiating lines from center; " +++ dq +++ str "hierarchy" +++ dq
  +++ str " -> pyramid structure." +++ nl
  +++ str "  - The " +++ dq +++ str "art" +++ dq
  +++ str " string must be a valid JSON string value. This means all backslashes ("
  +++ bs +++ bs +++ str ") must be escaped (as " +++ bs +++ bs +++ bs +++ bs
  +++ str ") and all double quotes (" +++ dq +++ str ") must be escaped (as "
  +++ bs +++ bs +++ dq +++ str "). Use " +++ bs +++ str "n for newlines." +++ nl
  +++ str "  - Any text included in the art must be in " +++ language +++ str ".".

Definition artPrompt (topic language style : jsstring) : jsstring :=
  str "For " +++ dq +++ topic +++ dq +++ str ", create a JSON object with one key: "
  +++ dq +++ str "art" +++ dq +++ str "." +++ nl
  +++ artPromptPart topic language (styleInstructionFor style topic) +++ nl
  +++ nl
  +++ str "Return ONLY the raw JSON object. The entire response must be a single, valid JSON object starting with "
  +++ dq +++ str "{" +++ dq +++ str " and ending with " +++ dq +++ str "}" +++ dq
  +++ str ".".

Definition artConfig : GenerationConfig :=
  {| responseMimeType := Some (str "application/json");
     thinkingBudget :=
       if negb ENABLE_THINKING_FOR_ASCII_ART then Some 0%Z else None |}.

(** Lines 301-307: trim the text and drop a code fence around it. *)
Definition unfence (responseText : jsstring) : jsstring :=
  let jsonStr := trim responseText in
  match Regex.exec fenceRegex jsonStr with
  | Some (Some m1) =>
      if truthy (VString m1) then trim m1 else jsonStr
  | Some None | None => jsonStr
  end.

(** Lines 309-313: the shape check, then [JSON.parse]. *)
Definition parseObject (jsonStr : jsstring) : Exc jsvalue :=
  if negb (startsWith (str "{") jsonStr) || negb (endsWith (str "}") jsonStr)
  then inl (JsError (str "Response is not a valid JSON object"))
  else JSON_parse jsonStr.

(** Lines 315-327: validate [art] and build the result. The flag is
    an argument; the module passes [ENABLE_ASCII_TEXT_GENERATION]. *)
Definition buildResult (textGeneration : bool) (parsedData : jsvalue)
    : Exc AsciiArtData :=
  match getField parsedData (str "art") with
  | inl e => inl e
  | inr (VString a) =>
      if Nat.eqb (length (trim a)) 0
      then inl (JsError (str "Invalid or empty ASCII art in response"))
      else
        if textGeneration then
          match getField parsedData (str "text") with
          | inl e => inl e
          | inr t =>
              if truthy t then inr {| art := a; text := Some t |}
              else inr {| art := a; text := None |}
          end
        else inr {| art := a; text := None |}
  | inr _ => inl (JsError (str "Invalid or empty ASCII art in response"))
  end.

(** Lines 301-327: what one attempt makes of the response. *)
Definition readResponse (textGeneration : bool)
    (response : GenerateContentResponse) : Exc AsciiArtData :=
  match definedText (responseText response) (str "trim") with
  | inl e => inl e
  | inr t =>
      match parseObject (unfence t) with
      | inl e => inl e
      | inr parsedData => buildResult textGeneration parsedData
      end
  end.

Definition artRequest (prompt : jsstring) : GenerateContentParameters :=
  {| model := artModelName; contents := prompt; config := artConfig |}.

(** The body of the [try]: one network call and its validation. *)
Definition attemptOnce (textGeneration : bool) (ai : GoogleGenAI)
    (prompt : jsstring) : M AsciiArtData :=
  response <- models_generateContent ai (artRequest prompt) ;;
  liftExc (readResponse textGeneration response).

(** The [for] loop over attempts 1 .. maxRetries and the [throw]
    after it. [lastError] holds the message of the Error kept. *)
Fixpoint attemptLoop (textGeneration : bool) (ai : GoogleGenAI)
    (prompt : jsstring) (attempts : list nat) (lastError : option jsstring)
    : M AsciiArtData :=
  match attempts with
  | [] =>
      throw (JsError (match lastError with
                      | Some m => m
                      | None => str "All retry attempts failed"
                      end))
  | attempt :: later =>
      tryCatch (attemptOnce textGeneration ai prompt)
        (fun error =>
           let lastError := messageOr (str "Unknown error occurred") error in
           consoleWarn
             (str "Attempt " +++ decimal attempt +++ str "/"
              +++ decimal maxRetries +++ str " failed:") lastError ;;;
           if Nat.eqb attempt maxRetries then
             consoleError
               (str "All retry attempts failed for ASCII art generation") None ;;;
             throw (JsError
               (str "Could not generate ASCII art after " +++ decimal maxRetries
                +++ str " attempts: " +++ lastError))
           else attemptLoop textGeneration ai prompt later (Some lastError))
  end.

Definition generateAsciiArtWith (textGeneration : bool)
    (topic language : jsstring) (apiKey : option jsstring) (style : jsstring)
    : M AsciiArtData :=
  ai <- liftExc (getAi apiKey) ;;
  let prompt := artPrompt topic language style in
  attemptLoop textGeneration ai prompt (seq 1 maxRetries) None.

Definition generateAsciiArt : jsstring -> jsstring -> option jsstring ->
    jsstring -> M AsciiArtData :=
  generateAsciiArtWith ENABLE_ASCII_TEXT_GENERATION.

(** *** streamDefinition

    An async generator is a state machine: each [next()] of the
    consumer runs the body from the point where it was suspended to
    the next [yield], to its end or to a [throw]. *)

Inductive Generator : Type :=
| NotStarted (topic language : jsstring) (apiKey : option jsstring)
| AtKeyMessage                       (* suspended at the yield of line 50 *)
| AtChunk (topic : jsstring) (more : ResponseStream)
                                     (* suspended at the yield of line 69 *)
| AtErrorMessage (errorMessage : jsstring)
                                     (* suspended at the yield of line 76 *)
| Closed.

Inductive IteratorResult : Type :=
| Yielded (fragment : jsstring)
| Returned
| Threw (e : jsexn).

Definition definitionPrompt (topic language : jsstring) : jsstring :=
  str "Provide a concise, single-paragraph encyclopedia-style definition for the term: "
  +++ dq +++ topic +++ dq
  +++ str ". Be informative and neutral. Do not use markdown, titles, or any special formatting. Respond with only the text of the definition itself. The language of the definition must be "
  +++ language +++ str ".".

Definition keyMessage : jsstring :=
  str "Error: API_KEY is not configured. Please set your API key to continue.".

Definition errorFragment (topic errorMessage : jsstring) : jsstring :=
  str "Error: Could not generate content for " +++ dq +++ topic +++ dq
  +++ str ". " +++ errorMessage
  +++ str ". Please check if your API key is correct.".

(** The [catch] block, up to its [yield]. *)
Definition caught (topic : jsstring) (error : jsexn) (w : World)
    : IteratorResult * Generator * World :=
  let w' := logged (ConsoleError (str "Error streaming from Gemini:") (Some error)) w in
  let errorMessage := messageOr (str "An unknown error occurred.") error in
  (Yielded (errorFragment topic errorMessage), AtErrorMessage errorMessage, w').

(** The [for await] loop, from the request for the next chunk on. *)
Fixpoint forAwait (topic : jsstring) (response : ResponseStream) (w : World)
    : IteratorResult * Generator * World :=
  match response with
  | StreamEnd => (Returned, Closed, w)
  | StreamFail e => caught topic e w
  | StreamChunk chunk more =>
      match responseText chunk with
      | Some (c :: t) => (Yielded (c :: t), AtChunk topic more, w)
      | Some [] | None => forAwait topic more w
      end
  end.

(** [generator.next()] *)
Definition next (g : Generator) (w : World) : IteratorResult * Generator * World :=
  match g with
  | NotStarted topic language apiKey =>
      if missing apiKey then (Yielded keyMessage, AtKeyMessage, w)
      else
        match getAi apiKey with
        | inl e => (Threw e, Closed, w)
        | inr ai =>
            let prompt := definitionPrompt topic language in
            match models_generateContentStream ai
                    {| model := textModelName; contents := prompt;
                       config := noThinking |} w with
            | (inr response, w') => forAwait topic response w'
            | (inl e, w') => caught topic e w'
            end
        end
  | AtKeyMessage => (Returned, Closed, w)
  | AtChunk topic more => forAwait topic more w
  | AtErrorMessage errorMessage => (Threw (JsError errorMessage), Closed, w)
  | Closed => (Returned, Closed, w)
  end.

Definition streamDefinition (topic language : jsstring)
    (apiKey : option jsstring) : Generator :=
  NotStarted topic language apiKey.

(** How an iteration ended. *)
Inductive Completion : Type :=
| Completed
| Failed (e : jsexn).

(** A consumer that reads the generator to its end, as
    [for await (const fragment of generator)] does: the fragments it
    saw and how the iteration ended. [None] when [fuel] calls of
    [next] did not reach the end. *)
Fixpoint consume (fuel : nat) (g : Generator) (w : World)
    : option (list jsstring * Completion * World) :=
  match fuel with
  | O => None
  | S fuel' =>
      match next g w with
      | (Yielded fragment, g', w') =>
          match consume fuel' g' w' with
          | Some (fragments, c, w'') => Some (fragment :: fragments, c, w'')
          | None => None
          end
      | (Returned, _, w') => Some ([], Completed, w')
      | (Threw e, _, w') => Some ([], Failed e, w')
      end
  end.

(** *** Vocabulary of the properties *)

(** What attempt number [n] (from 0, counting every network call of
    the run) comes to: the outcome of the call, then of reading the
    response. *)
Definition attemptOutcome (textGeneration : bool) (ai : GoogleGenAI)
    (prompt : jsstring) (n : nat) : Exc AsciiArtData :=
  match generateContent n ai (artRequest prompt) with
  | inl e => inl e
  | inr response => readResponse textGeneration response
  end.

Definition fence : jsstring := str "```".

(** The text between an opening fence, with its optional [json]
    label, and a closing fence; [None] when the text has no such
    fences. *)
Definition fenceBody (s : jsstring) : option jsstring :=
  match stripPrefix fence s with
  | Some afterFence =>
      stripSuffix fence
        (match stripPrefix (str "json") afterFence with
         | Some afterLabel => afterLabel
         | None => afterFence
         end)
  | None => None
  end.

(** Steps a to d of the algorithm as the specification words them:
    trim; strip a fence, keeping the inner content (without the white
    space next to the fence lines); check the braces; parse. *)
Definition spec_stripFence (trimmed : jsstring) : jsstring :=
  match fenceBody trimmed with
  | Some inner => trim inner
  | None => trimmed
  end.

Definition spec_parseResponseText (raw : jsstring) : Exc jsvalue :=
  let remaining := spec_stripFence (trim raw) in
  if startsWith (str "{") remaining && endsWith (str "}") remaining
  then JSON_parse remaining
  else inl (JsError (str "Response is not a valid JSON object")).

(** A markdown code block around [inner]. *)
Definition codeBlock (labelled : bool) (inner : jsstring) : jsstring :=
  fence +++ (if labelled then str "json" else []) +++ nl
  +++ inner +++ nl +++ fence.

(** A response stream that delivers [chunks] and then ends as [ending]. *)
Definition deliver (chunks : list GenerateContentResponse)
    (ending : ResponseStream) : ResponseStream :=
  fold_right StreamChunk ending chunks.

(** The texts of the chunks that have one, in order. *)
Fixpoint fragmentsOf (chunks : list GenerateContentResponse) : list jsstring :=
  match chunks with
  | chunk :: more =>
      match responseText chunk with
      | Some (c :: t) => (c :: t) :: fragmentsOf more
      | Some [] | None => fragmentsOf more
      end
  | [] => []
  end.

Definition definitionRequest (topic language : jsstring)
    : GenerateContentParameters :=
  {| model := textModelName; contents := definitionPrompt topic language;
     config := noThinking |}.

Definition randomWordRequest (language : jsstring) : GenerateContentParameters :=
  {| model := textModelName; contents := randomWordPrompt language;
     config := noThinking |}.

(** *** Vocabulary of the proofs about the fence pattern *)

Definition fenced (s : jsstring) : Prop := exists b, s = b ++ fence.

Definition blank (s : jsstring) : Prop :=
  Forall (fun c => isWhiteSpace c = true) s.

(** [closes s]: [s] is white space followed by the closing fence. *)
Definition closes (s : jsstring) : bool := JsString.eqb (trimStart s) fence.

(** The length of the shortest prefix of [s] after which [s] closes. *)
Fixpoint firstClose (s : jsstring) : option nat :=
  if closes s then Some 0
  else match s with
       | [] => None
       | _ :: s' => option_map S (firstClose s')
       end.

(** The tails of the fence pattern, from its end:
    r8 is the closing fence and the end of the text, r7 puts the white
    space before it, r6 the optional line feed, r5 the lazy group, r4
    the optional line feed after the opening, r3 the white space, r2
    the optional label, r1 the opening fence. *)
Definition anyChar : N -> bool := fun _ => true.
Definition r8 : Regex.re := Regex.Seq (Regex.lit fence) Regex.Eol.
Definition r7 : Regex.re := Regex.Seq (Regex.Star isWhiteSpace) r8.
Definition r6 : Regex.re := Regex.Seq (Regex.Opt (Regex.Char 10)) r7.
Definition r5 : Regex.re := Regex.Seq (Regex.Group (Regex.LazyStar anyChar)) r6.
Definition r4 : Regex.re := Regex.Seq (Regex.Opt (Regex.Char 10)) r5.
Definition r3 : Regex.re := Regex.Seq (Regex.Star isWhiteSpace) r4.
Definition r2 : Regex.re := Regex.Seq (Regex.Opt (Regex.lit (str "json"))) r3.
Definition r1 : Regex.re := Regex.Seq (Regex.lit fence) r2.

(** *** Vocabulary of the properties of the retry loop *)

(** The world after one more art request. *)
Definition called (ai : GoogleGenAI) (prompt : jsstring) (w : World) : World :=
  sent (GenerateContent ai (artRequest prompt)) w.

(** The world after the warning that attempt [attempt] failed with [e]. *)
Definition warned (attempt : nat) (e : jsexn) (w : World) : World :=
  logged (ConsoleWarn
            (str "Attempt " +++ decimal attempt +++ str "/"
             +++ decimal maxRetries +++ str " failed:")
            (messageOr (str "Unknown error occurred") e)) w.

Definition gaveUp (w : World) : World :=
  logged (ConsoleError (str "All retry attempts failed for ASCII art generation") None) w.

Definition keyMissing : jsexn :=
  JsError (str "API Key is missing. Please provide a valid API key.").

Definition invalidArt : jsexn :=
  JsError (str "Invalid or empty ASCII art in response").

(** *** Vocabulary of the properties of streaming *)

(** The world after the stream request and after the [catch] block
    logged the failure. *)
Definition streamCalled (ai : GoogleGenAI) (topic language : jsstring) (w : World)
    : World :=
  sent (GenerateContentStream ai (definitionRequest topic language)) w.

Definition streamFailed (e : jsexn) (w : World) : World :=
  logged (ConsoleError (str "Error streaming from Gemini:") (Some e)) w.

(** *** Vocabulary of the further properties *)


Definition notJsonObject : jsexn :=
  JsError (str "Response is not a valid JSON object").

(** The console entries for attempts that failed, the first of them
    being attempt number [attempt]. *)
Fixpoint warnings (attempt : nat) (errors : list jsexn) : list ConsoleEntry :=
  match errors with
  | [] => []
  | e :: more =>
      ConsoleWarn
        (str "Attempt " +++ decimal attempt +++ str "/3 failed:")
        (messageOr (str "Unknown error occurred") e)
      :: warnings (S attempt) more
  end.

(** The text of a chunk, empty when it has none. *)
Definition chunkText (chunk : GenerateContentResponse) : jsstring :=
  match responseText chunk with
  | Some t => t
  | None => []
  end.

(** The style names that the switch lists. *)
Definition knownStyles : list jsstring :=
  map str
    ["Detailed"; "Blocky"; "Abstract"; "Pixelated"; "Line Art"; "Grunge";
     "Glitch"; "Blueprint"; "Calligraphy"; "Doodle"; "Hatching"; "Stipple";
     "8-Bit"; "Halftone"; "Typographic"; "Circuit Board"; "Origami"; "Mosaic";
     "Sketch"; "Stencil"; "Psychedelic"; "Art Deco"; "Gothic"; "Vaporwave";
     "Minimalist"]%string.

(** The generator has run its first step. *)
Definition started (g : Generator) : Prop :=
  match g with
  | NotStarted _ _ _ => False
  | _ => True
  end.

(** ** Properties *)

(** Strings. *)
Lemma eqb_eq a b : JsString.eqb a b = true <-> a = b.
Proof.
  revert b; induction a as [|x a IH]; intros [|y b]; simpl; split; try easy.
  - rewrite andb_true_iff, N.eqb_eq, IH. now intros [-> ->].
  - intros [= -> ->]. now rewrite N.eqb_refl, (proj2 (IH b)).
Qed.

Lemma stripPrefix_spec p s r : stripPrefix p s = Some r <-> s = p ++ r.
Proof.
  revert s; induction p as [|x p IH]; intros s; simpl.
  - split; [now intros [= ->] | now intros ->].
  - destruct s as [|y s]; [split; easy|].
    destruct (N.eqb_spec x y) as [->|ne].
    + rewrite IH. split; [now intros -> | now intros [= ->]].
    + split; [easy | intros [= -> _]; now elim ne].
Qed.

Lemma stripPrefix_app p r : stripPrefix p (p ++ r) = Some r.
Proof. now apply stripPrefix_spec. Qed.

Lemma stripSuffix_spec p s b : stripSuffix p s = Some b <-> s = b ++ p.
Proof.
  unfold stripSuffix.
  destruct (stripPrefix (rev p) (rev s)) as [r|] eqn:E.
  - apply stripPrefix_spec in E.
    assert (s = rev r ++ p).
    { rewrite <- (rev_involutive s), E, rev_app_distr, rev_involutive. reflexivity. }
    split.
    + now intros [= <-].
    + intros ->. f_equal. subst. now apply app_inv_tail in H.
  - split; [easy|]. intros ->.
    rewrite rev_app_distr, stripPrefix_app in E. discriminate.
Qed.

Lemma stripSuffix_fenced s : fenced s <-> exists b, stripSuffix fence s = Some b.
Proof.
  split; intros [b H]; exists b; now apply stripSuffix_spec.
Qed.

(** Trimming. *)

Lemma trimStart_split s : exists w, s = w ++ trimStart s /\ blank w.
Proof.
  induction s as [|c s [w [E B]]]; simpl.
  - exists []. split; [reflexivity | constructor].
  - destruct (isWhiteSpace c) eqn:W.
    + exists (c :: w). split; [simpl; now f_equal | now constructor].
    + exists []. split; [reflexivity | constructor].
Qed.

Lemma trimStart_blank s : blank s -> trimStart s = [].
Proof. induction 1 as [|c s W _ IH]; simpl; [reflexivity | now rewrite W]. Qed.

Lemma trimStart_app b c x :
  isWhiteSpace c = false -> trimStart (b ++ c :: x) = trimStart b ++ c :: x.
Proof.
  intros W. induction b as [|d b IH]; simpl.
  - now rewrite W.
  - destruct (isWhiteSpace d); [exact IH | reflexivity].
Qed.

Lemma trimEnd_nil s : trimEnd s = [] <-> blank s.
Proof.
  induction s as [|c s IH]; simpl.
  - split; [constructor | reflexivity].
  - destruct (trimEnd s) as [|d r] eqn:E.
    + destruct (isWhiteSpace c) eqn:W; split; try easy.
      * intros _. constructor; [exact W | now apply IH].
      * intros B. inversion B; congruence.
    + split; [easy|]. intros B. inversion B as [|? ? _ B']; subst.
      apply IH in B'. discriminate.
Qed.

Lemma trimEnd_cons c s :
  ~ blank (c :: s) -> trimEnd (c :: s) = c :: trimEnd s.
Proof.
  intros NB. simpl. destruct (trimEnd s) as [|d r] eqn:E; [|reflexivity].
  destruct (isWhiteSpace c) eqn:W; [|reflexivity].
  elim NB. constructor; [exact W | now apply trimEnd_nil].
Qed.

Lemma trimEnd_split s : exists w, s = trimEnd s ++ w /\ blank w.
Proof.
  induction s as [|c s [w [E B]]].
  - exists []. split; [reflexivity | constructor].
  - simpl. destruct (trimEnd s) as [|d r] eqn:T.
    + simpl in E. subst w. destruct (isWhiteSpace c) eqn:W.
      * exists (c :: s). split; [reflexivity | now constructor].
      * exists s. split; [reflexivity | exact B].
    + exists w. split; [simpl; f_equal; exact E | exact B].
Qed.

Lemma isWhiteSpace_backtick : isWhiteSpace 96 = false.
Proof. reflexivity. Qed.

(** A string that ends with the fence still does after a prefix
    without backticks is removed. *)
Lemma fenced_app a r :
  Forall (fun c => c <> 96%N) a -> fenced (a ++ r) -> fenced r.
Proof.
  induction 1 as [|c a NE _ IH]; simpl; [easy|].
  intros [[|d b] E]; simpl in E.
  - injection E as -> _. now elim NE.
  - injection E as _ E. apply IH. now exists b.
Qed.

Lemma fenced_cons c r : fenced r -> fenced (c :: r).
Proof. intros [b ->]. now exists (c :: b). Qed.

Lemma blank_no_backtick w : blank w -> Forall (fun c => c <> 96%N) w.
Proof.
  induction 1 as [|c w W _ IH]; constructor; [|exact IH].
  intros ->. discriminate.
Qed.


Lemma closes_fenced s : closes s = true -> fenced s.
Proof.
  unfold closes. rewrite eqb_eq. intros E.
  destruct (trimStart_split s) as [w [S _]]. exists w. now rewrite <- E.
Qed.

Lemma closes_blank b : closes (b ++ fence) = true <-> blank b.
Proof.
  unfold closes, fence at 1. simpl str.
  rewrite trimStart_app by reflexivity. rewrite eqb_eq. split.
  - intros E. apply (f_equal (@length N)) in E. rewrite length_app in E. simpl in E.
    assert (L : length (trimStart b) = 0) by lia.
    destruct (trimStart_split b) as [w [S B]].
    destruct (trimStart b); [|discriminate]. rewrite app_nil_r in S. now subst.
  - intros B. now rewrite trimStart_blank.
Qed.

Lemma firstClose_fence b : firstClose (b ++ fence) = Some (length (trimEnd b)).
Proof.
  induction b as [|c b IH].
  - reflexivity.
  - change ((c :: b) ++ fence) with (c :: (b ++ fence)).
    cbn [firstClose]. change (c :: (b ++ fence)) with ((c :: b) ++ fence).
    destruct (closes ((c :: b) ++ fence)) eqn:C.
    + apply closes_blank in C. apply trimEnd_nil in C. now rewrite C.
    + rewrite IH. rewrite trimEnd_cons; [reflexivity|].
      intros B. apply closes_blank in B. congruence.
Qed.

Lemma firstClose_none s : ~ fenced s -> firstClose s = None.
Proof.
  induction s as [|c s IH]; intros NF.
  - reflexivity.
  - cbn [firstClose]. destruct (closes (c :: s)) eqn:C.
    + elim NF. now apply closes_fenced.
    + rewrite IH; [reflexivity|]. intros F. apply NF. now apply fenced_cons.
Qed.

Lemma firstClose_some s j : firstClose s = Some j -> fenced s.
Proof.
  intros E. destruct (stripSuffix fence s) as [b|] eqn:S.
  - exists b. now apply stripSuffix_spec.
  - rewrite firstClose_none in E; [discriminate|].
    intros [b F]. apply stripSuffix_spec in F. congruence.
Qed.

(** The matcher on the tails of the fence pattern. *)
Import Regex.

Lemma fenceRegex_unfold : fenceRegex = Seq Bol r1.
Proof. reflexivity. Qed.

Lemma matcher_lit p s i cap k :
  matcher (lit p) (State s i cap) k =
  match stripPrefix p s with
  | Some r => k (State r (length p + i) cap)
  | None => None
  end.
Proof.
  revert s i; induction p as [|x p IH]; intros s i.
  - reflexivity.
  - cbn [lit matcher rest endIndex capture stripPrefix].
    destruct s as [|y s]; [reflexivity|].
    destruct (N.eqb x y); [|reflexivity].
    rewrite IH. destruct (stripPrefix p s); [|reflexivity].
    simpl length. now rewrite Nat.add_succ_r.
Qed.

Lemma matcher_r8 s i cap k :
  matcher r8 (State s i cap) k =
  if JsString.eqb s fence then k (State [] (length s + i) cap) else None.
Proof.
  unfold r8. cbn [matcher]. rewrite matcher_lit.
  destruct (stripPrefix fence s) as [r|] eqn:P.
  - apply stripPrefix_spec in P. subst s. destruct r as [|c r].
    + reflexivity.
    + cbn [matcher rest]. 
      replace (JsString.eqb (fence ++ c :: r) fence) with false; [reflexivity|].
      symmetry. apply not_true_is_false. rewrite eqb_eq. intros E.
      apply (f_equal (@length N)) in E. rewrite length_app in E. simpl in E. lia.
  - replace (JsString.eqb s fence) with false; [reflexivity|].
    symmetry. apply not_true_is_false. rewrite eqb_eq. intros ->.
    discriminate.
Qed.

Lemma matcher_r7 s i cap k :
  matcher r7 (State s i cap) k =
  if closes s then k (State [] (length s + i) cap) else None.
Proof.
  unfold r7. cbn [matcher rest endIndex capture].
  revert i; induction s as [|c s IH]; intros i.
  - cbn [starGreedy]. now rewrite matcher_r8.
  - cbn [starGreedy]. unfold closes. cbn [trimStart].
    destruct (isWhiteSpace c) eqn:W.
    + rewrite IH, matcher_r8. fold (closes s).
      replace (length (c :: s) + i) with (length s + S i) by (simpl; lia).
      replace (JsString.eqb (c :: s) fence) with false.
      * destruct (closes s); [destruct (k _); reflexivity | reflexivity].
      * symmetry. apply not_true_is_false. rewrite eqb_eq. intros [= -> _].
        discriminate.
    + now rewrite matcher_r8.
Qed.

Lemma closes_cons c s : isWhiteSpace c = true -> closes (c :: s) = closes s.
Proof. intros W. unfold closes. simpl. now rewrite W. Qed.

Lemma matcher_r6 s i cap k :
  matcher r6 (State s i cap) k =
  if closes s then k (State [] (length s + i) cap) else None.
Proof.
  unfold r6. cbn [matcher rest endIndex capture].
  destruct s as [|c s].
  - now rewrite matcher_r7.
  - destruct (N.eqb_spec 10 c) as [<-|ne].
    + rewrite !matcher_r7. rewrite (@closes_cons 10%N) by reflexivity.
      replace (length (10%N :: s) + i) with (length s + S i) by (simpl; lia).
      destruct (closes s); [destruct (k _); reflexivity | reflexivity].
    + now rewrite matcher_r7.
Qed.

(** The lazy star gives the shortest capture after which the rest closes. *)
Lemma starLazy_close s : forall i cap (f : nat -> jsstring),
  starLazy anyChar s i cap
    (fun y => matcher r6 (State (rest y) (endIndex y) (Some (f (endIndex y))))
                (fun z => Some z)) =
  match firstClose s with
  | Some j => Some (State [] (length s + i) (Some (f (j + i))))
  | None => None
  end.
Proof.
  induction s as [|c s IH]; intros i cap f.
  - cbn [starLazy rest endIndex]. rewrite matcher_r6. reflexivity.
  - cbn [starLazy rest endIndex firstClose]. rewrite matcher_r6.
    destruct (closes (c :: s)); [reflexivity|].
    unfold anyChar at 1. rewrite IH.
    destruct (firstClose s) as [j|]; [|reflexivity].
    simpl. now rewrite !Nat.add_succ_r.
Qed.

Lemma matcher_r5 s i cap :
  matcher r5 (State s i cap) (fun z => Some z) =
  match firstClose s with
  | Some j => Some (State [] (length s + i) (Some (firstn j s)))
  | None => None
  end.
Proof.
  unfold r5. cbn [matcher rest endIndex capture].
  pose proof (starLazy_close s i cap (fun e => firstn (e - i) s)) as H.
  cbv beta in H. etransitivity; [exact H|].
  destruct (firstClose s) as [j|]; [|reflexivity].
  now rewrite Nat.add_sub.
Qed.

Lemma firstClose_cons_none c s :
  isWhiteSpace c = true -> firstClose s = None -> firstClose (c :: s) = None.
Proof.
  intros W E. cbn [firstClose]. rewrite (@closes_cons c s W), E.
  destruct (closes s) eqn:C; [|reflexivity].
  destruct s; cbn [firstClose] in E; rewrite C in E; discriminate.
Qed.

Lemma matcher_r4 s i cap :
  matcher r4 (State s i cap) (fun z => Some z) =
  matcher r5 (State (match s with
                     | c :: s' => if N.eqb 10 c then s' else s
                     | [] => s
                     end)
                (match s with
                 | c :: _ => if N.eqb 10 c then S i else i
                 | [] => i
                 end) cap) (fun z => Some z).
Proof.
  unfold r4. cbn [matcher rest endIndex capture].
  destruct s as [|c s]; [reflexivity|].
  destruct (N.eqb_spec 10 c) as [<-|ne]; [|reflexivity].
  rewrite !matcher_r5.
  destruct (firstClose s) as [j|] eqn:E; [reflexivity|].
  now rewrite firstClose_cons_none.
Qed.

Lemma matcher_r3 s : forall i cap,
  matcher r3 (State s i cap) (fun z => Some z) =
  match firstClose (trimStart s) with
  | Some j => Some (State [] (length s + i) (Some (firstn j (trimStart s))))
  | None => None
  end.
Proof.
  unfold r3. cbn [matcher rest endIndex capture].
  induction s as [|c s IH]; intros i cap.
  - cbn [starGreedy]. rewrite matcher_r4, matcher_r5. reflexivity.
  - cbn [starGreedy trimStart]. destruct (isWhiteSpace c) eqn:W.
    + rewrite IH.
      replace (length (c :: s) + i) with (length s + S i) by (simpl; lia).
      destruct (firstClose (trimStart s)) as [j|] eqn:E; [reflexivity|].
      assert (NF : ~ fenced s).
      { intros F. destruct (trimStart_split s) as [w [S B]].
        rewrite S in F. apply fenced_app in F; [|now apply blank_no_backtick].
        destruct F as [b F]. rewrite F, firstClose_fence in E. discriminate. }
      rewrite matcher_r4.
      assert (N1 : firstClose s = None) by now apply firstClose_none.
      destruct (N.eqb 10 c); rewrite matcher_r5.
      * now rewrite N1.
      * now rewrite firstClose_cons_none.
    + rewrite matcher_r4.
      replace (N.eqb 10 c) with false; [now rewrite matcher_r5|].
      symmetry. apply N.eqb_neq. intros <-. discriminate.
Qed.

Lemma matcher_r2 s i cap :
  matcher r2 (State s i cap) (fun z => Some z) =
  let r := match stripPrefix (str "json") s with Some r => r | None => s end in
  match firstClose (trimStart r) with
  | Some j => Some (State [] (length s + i) (Some (firstn j (trimStart r))))
  | None => None
  end.
Proof.
  unfold r2. cbn [matcher rest endIndex capture]. rewrite matcher_lit.
  destruct (stripPrefix (str "json") s) as [r|] eqn:P; cbv zeta.
  - rewrite !matcher_r3. apply stripPrefix_spec in P. subst s.
    rewrite length_app, Nat.add_assoc, (Nat.add_comm (length r)).
    destruct (firstClose (trimStart r)) as [j|] eqn:E; [reflexivity|].
    rewrite firstClose_none; [reflexivity|].
    intros F. destruct (trimStart_split (str "json" ++ r)) as [w [S _]].
    simpl in S. change (trimStart (str "json" ++ r)) with (str "json" ++ r) in F.
    apply fenced_app in F.
    + destruct (trimStart_split r) as [w' [S' B']]. rewrite S' in F.
      apply fenced_app in F; [|now apply blank_no_backtick].
      destruct F as [b F]. rewrite F, firstClose_fence in E. discriminate.
    + repeat constructor; discriminate.
  - now rewrite matcher_r3.
Qed.

Lemma firstn_length_app (a z : jsstring) : firstn (length a) (a ++ z) = a.
Proof. induction a as [|x a IH]; simpl; [reflexivity | now rewrite IH]. Qed.

Lemma search_not_at_start s : forall i, search fenceRegex s (S i) = None.
Proof.
  induction s as [|c s IH]; intros i; cbn [search].
  - reflexivity.
  - change (matcher fenceRegex (State (c :: s) (S i) None) (fun y => Some y))
      with (@None state). apply IH.
Qed.

(** The fence pattern matches the texts that have an opening fence,
    with its optional label, and a closing one; group 1 is the trimmed
    text between them. *)
Lemma exec_fenceRegex s :
  exec fenceRegex s =
  match fenceBody s with
  | Some b => Some (Some (trim b))
  | None => None
  end.
Proof.
  assert (M : matcher fenceRegex (State s 0 None) (fun y => Some y) =
              match fenceBody s with
              | Some b => Some (State [] (length s) (Some (trim b)))
              | None => None
              end).
  { change (matcher fenceRegex (State s 0 None) (fun y => Some y))
      with (matcher r1 (State s 0 None) (fun y => Some y)).
    unfold r1. cbn [matcher]. rewrite matcher_lit. unfold fenceBody.
    destruct (stripPrefix fence s) as [a|] eqn:P; [|reflexivity].
    rewrite matcher_r2. cbv zeta.
    set (r := match stripPrefix (str "json") a with Some x => x | None => a end).
    destruct (stripSuffix fence r) as [b|] eqn:Q.
    - apply stripSuffix_spec in Q. rewrite Q.
      assert (T : trimStart (b ++ fence) = trimStart b ++ fence)
        by (apply trimStart_app; reflexivity).
      rewrite !T, firstClose_fence.
      destruct (trimEnd_split (trimStart b)) as [w [E _]].
      replace (trimStart b ++ fence) with (trimEnd (trimStart b) ++ (w ++ fence))
        by (now rewrite app_assoc, <- E).
      rewrite firstn_length_app. unfold trim.
      apply stripPrefix_spec in P. subst s. do 3 f_equal.
      rewrite length_app. now rewrite Nat.add_0_r, Nat.add_comm.
    - rewrite firstClose_none; [reflexivity|].
      intros F. destruct (trimStart_split r) as [w [S B]].
      assert (F' : fenced r).
      { rewrite S. destruct F as [b F]. exists (w ++ b). rewrite F.
        now rewrite app_assoc. }
      destruct F' as [b F']. apply stripSuffix_spec in F'. congruence. }
  unfold exec. destruct s as [|c s]; cbn [search]; rewrite M.
  - reflexivity.
  - destruct (fenceBody (c :: s)); [reflexivity|]. apply search_not_at_start.
Qed.

(** More on trimming. *)

Lemma trimStart_app_blank w x : blank w -> trimStart (w ++ x) = trimStart x.
Proof. induction 1 as [|c w W _ IH]; simpl; [reflexivity | now rewrite W]. Qed.

Lemma trimStart_app_l b x : ~ blank b -> trimStart (b ++ x) = trimStart b ++ x.
Proof.
  induction b as [|c b IH]; intros NB.
  - elim NB. constructor.
  - simpl. destruct (isWhiteSpace c) eqn:W; [|reflexivity].
    apply IH. intros B. apply NB. now constructor.
Qed.

Lemma blank_app w1 w2 : blank w1 -> blank w2 -> blank (w1 ++ w2).
Proof. intros B1 B2. apply Forall_app. now split. Qed.

Lemma trimEnd_app_blank x w : blank w -> trimEnd (x ++ w) = trimEnd x.
Proof.
  intros B. induction x as [|c x IH].
  - simpl. now apply trimEnd_nil.
  - simpl. now rewrite IH.
Qed.

Lemma trimEnd_app_r x c : isWhiteSpace c = false -> trimEnd (x ++ [c]) = x ++ [c].
Proof.
  intros W. induction x as [|d x IH].
  - simpl. now rewrite W.
  - simpl. rewrite IH. destruct (x ++ [c]) eqn:E; [|reflexivity].
    now destruct x.
Qed.

Lemma trimEnd_idem s : trimEnd (trimEnd s) = trimEnd s.
Proof.
  induction s as [|c s IH]; [reflexivity|].
  cbn [trimEnd]. destruct (trimEnd s) as [|d r] eqn:E.
  - destruct (isWhiteSpace c) eqn:W; simpl; [reflexivity | now rewrite W].
  - change (trimEnd (c :: d :: r))
      with (match trimEnd (d :: r) with
            | [] => if isWhiteSpace c then [] else [c]
            | d' :: r' => c :: d' :: r'
            end).
    now rewrite IH.
Qed.

Lemma trimStart_trimEnd s : trimStart (trimEnd (trimStart s)) = trimEnd (trimStart s).
Proof.
  induction s as [|c s IH]; [reflexivity|].
  cbn [trimStart]. destruct (isWhiteSpace c) eqn:W; [exact IH|].
  cbn [trimEnd]. destruct (trimEnd s); rewrite ?W; cbn [trimStart]; now rewrite W.
Qed.

Lemma trim_idem s : trim (trim s) = trim s.
Proof. unfold trim. now rewrite trimStart_trimEnd, trimEnd_idem. Qed.

Lemma trim_blank s : blank s -> trim s = [].
Proof. intros B. unfold trim. now rewrite trimStart_blank. Qed.

Lemma trim_between w1 x w2 : blank w1 -> blank w2 -> trim (w1 ++ x ++ w2) = trim x.
Proof.
  intros B1 B2. unfold trim. rewrite trimStart_app_blank by exact B1.
  destruct (trimEnd (trimStart x)) eqn:E.
  - apply trimEnd_nil in E.
    destruct (trimStart_split x) as [w [S B]].
    assert (Bx : blank x) by (rewrite S; now apply blank_app).
    rewrite trimStart_blank by (now apply blank_app). reflexivity.
  - rewrite <- E. clear E.
    induction x as [|c x IH].
    + simpl. rewrite trimStart_blank by exact B2. reflexivity.
    + cbn [app trimStart]. destruct (isWhiteSpace c); [exact IH|].
      change (c :: x ++ w2) with ((c :: x) ++ w2). now apply trimEnd_app_blank.
Qed.

Lemma trim_fixed c x d :
  isWhiteSpace c = false -> isWhiteSpace d = false ->
  trim (c :: x ++ [d]) = c :: x ++ [d].
Proof.
  intros Wc Wd. unfold trim. cbn [trimStart]. rewrite Wc.
  change (c :: x ++ [d]) with ((c :: x) ++ [d]). now apply trimEnd_app_r.
Qed.

(** The fence step of an attempt. *)

Lemma unfence_fenceBody raw :
  unfence raw =
  match fenceBody (trim raw) with
  | Some b => match trim b with
              | [] => trim raw
              | c :: m => c :: m
              end
  | None => trim raw
  end.
Proof.
  unfold unfence. rewrite exec_fenceRegex.
  destruct (fenceBody (trim raw)) as [b|]; [|reflexivity].
  cbn [truthy]. destruct (trim b) as [|c m] eqn:E; [reflexivity|].
  cbn [JsString.eqb negb]. rewrite <- E. apply trim_idem.
Qed.

Lemma parseObject_backtick s :
  parseObject (96%N :: s) = inl (JsError (str "Response is not a valid JSON object")).
Proof. reflexivity. Qed.

Lemma fenceBody_backtick s b : fenceBody s = Some b -> exists s', s = 96%N :: s'.
Proof.
  unfold fenceBody. destruct (stripPrefix fence s) as [a|] eqn:P; [|discriminate].
  apply stripPrefix_spec in P. intros _. subst s. now eexists.
Qed.

Lemma trimEnd_fence x : trimEnd (x ++ fence) = x ++ fence.
Proof.
  change fence with ([96; 96]%N ++ [96%N]). rewrite app_assoc.
  now apply trimEnd_app_r.
Qed.

Lemma trim_codeBlock labelled inner :
  trim (codeBlock labelled inner) = codeBlock labelled inner.
Proof.
  unfold trim, codeBlock.
  change (trimStart (fence ++ ?x)) with (fence ++ x).
  rewrite !app_assoc. apply trimEnd_fence.
Qed.

Lemma fenceBody_codeBlock labelled inner :
  fenceBody (codeBlock labelled inner) = Some (nl ++ inner ++ nl).
Proof.
  unfold fenceBody, codeBlock. rewrite stripPrefix_app.
  assert (L : match stripPrefix (str "json")
                      ((if labelled then str "json" else []) ++ nl ++ inner ++ nl ++ fence)
              with Some x => x | None =>
                (if labelled then str "json" else []) ++ nl ++ inner ++ nl ++ fence
              end = nl ++ inner ++ nl ++ fence).
  { destruct labelled; [now rewrite stripPrefix_app | reflexivity]. }
  rewrite L. apply stripSuffix_spec. now rewrite <- !app_assoc.
Qed.

Lemma unfence_codeBlock labelled inner :
  unfence (codeBlock labelled inner) =
  match trim inner with
  | [] => codeBlock labelled inner
  | c :: m => c :: m
  end.
Proof.
  rewrite unfence_fenceBody, trim_codeBlock, fenceBody_codeBlock.
  rewrite trim_between; [reflexivity | |]; repeat constructor.
Qed.

Lemma unfence_plain raw :
  startsWith fence (trim raw) = false -> unfence raw = trim raw.
Proof.
  intros P. rewrite unfence_fenceBody. unfold fenceBody.
  unfold startsWith in P. now destruct (stripPrefix fence (trim raw)).
Qed.

(** C5. Each attempt processes the response text as the specification
    says: it trims the text, strips a code fence with its optional
    [json] label and keeps the inner content, rejects the text unless
    what remains starts with an opening and ends with a closing brace,
    and parses the rest as JSON, failing when the parser fails. A
    response inside a code block is read exactly as the same response
    without the block. *)
Theorem response_text_processing :
  (forall raw, parseObject (unfence raw) = spec_parseResponseText raw) /\
  (forall textGeneration labelled inner,
      startsWith fence (trim inner) = false ->
      readResponse textGeneration
        {| responseText := Some (codeBlock labelled inner) |} =
      readResponse textGeneration {| responseText := Some inner |}).
Proof.
  split.
  - intros raw. unfold spec_parseResponseText, spec_stripFence.
    rewrite unfence_fenceBody.
    destruct (fenceBody (trim raw)) as [b|] eqn:F.
    + destruct (trim b) as [|c m] eqn:E.
      * destruct (fenceBody_backtick _ F) as [s' ->]. reflexivity.
      * unfold parseObject.
        destruct (startsWith (str "{") (c :: m)), (endsWith (str "}") (c :: m));
          reflexivity.
    + unfold parseObject.
      destruct (startsWith (str "{") (trim raw)), (endsWith (str "}") (trim raw));
        reflexivity.
  - intros textGeneration labelled inner P.
    unfold readResponse. cbn [responseText definedText].
    rewrite unfence_codeBlock, (unfence_plain _ P).
    destruct (trim inner) as [|c m]; reflexivity.
Qed.

(** The retry loop. *)

Lemma networkCalls_sent c w : networkCalls (sent c w) = S (networkCalls w).
Proof. unfold networkCalls, sent. cbn [network]. rewrite length_app. simpl. lia. Qed.

Lemma networkCalls_logged e w : networkCalls (logged e w) = networkCalls w.
Proof. reflexivity. Qed.

Lemma attemptOnce_run textGeneration ai prompt w :
  attemptOnce textGeneration ai prompt w =
  (attemptOutcome textGeneration ai prompt (networkCalls w), called ai prompt w).
Proof.
  unfold attemptOnce, bind, models_generateContent, liftExc, attemptOutcome, called.
  destruct (generateContent (networkCalls w) ai (artRequest prompt)); reflexivity.
Qed.

Lemma getAi_missing apiKey : missing apiKey = true -> getAi apiKey = inl keyMissing.
Proof. destruct apiKey as [[|c k]|]; [reflexivity | discriminate | reflexivity]. Qed.

Lemma getAi_present apiKey :
  missing apiKey = false -> exists ai, getAi apiKey = inr ai.
Proof. destruct apiKey as [[|c k]|]; try discriminate. intros _. now eexists. Qed.

(** One turn of the loop. *)
Lemma attemptLoop_step textGeneration ai p attempt later lastError w :
  attemptLoop textGeneration ai p (attempt :: later) lastError w =
  match attemptOutcome textGeneration ai p (networkCalls w) with
  | inr r => (inr r, called ai p w)
  | inl e =>
      if Nat.eqb attempt maxRetries then
        (inl (JsError
                (str "Could not generate ASCII art after " +++ decimal maxRetries
                 +++ str " attempts: " +++ messageOr (str "Unknown error occurred") e)),
         gaveUp (warned attempt e (called ai p w)))
      else
        attemptLoop textGeneration ai p later
          (Some (messageOr (str "Unknown error occurred") e))
          (warned attempt e (called ai p w))
  end.
Proof.
  cbn [attemptLoop]. unfold tryCatch.
  rewrite (attemptOnce_run textGeneration ai p w).
  destruct (attemptOutcome textGeneration ai p (networkCalls w)) as [e|r];
    [|reflexivity].
  unfold bind, consoleWarn. destruct (Nat.eqb attempt maxRetries); reflexivity.
Qed.

(** The whole run of [generateAsciiArt] with a key, attempt by attempt. *)
Lemma generate_run textGeneration topic language apiKey style ai w :
  getAi apiKey = inr ai ->
  generateAsciiArtWith textGeneration topic language apiKey style w =
  let p := artPrompt topic language style in
  let n := networkCalls w in
  let w1 := called ai p w in
  match attemptOutcome textGeneration ai p n with
  | inr r => (inr r, w1)
  | inl e1 =>
      let w2 := called ai p (warned 1 e1 w1) in
      match attemptOutcome textGeneration ai p (S n) with
      | inr r => (inr r, w2)
      | inl e2 =>
          let w3 := called ai p (warned 2 e2 w2) in
          match attemptOutcome textGeneration ai p (S (S n)) with
          | inr r => (inr r, w3)
          | inl e3 =>
              (inl (JsError
                      (str "Could not generate ASCII art after 3 attempts: "
                       +++ messageOr (str "Unknown error occurred") e3)),
               gaveUp (warned 3 e3 w3))
          end
      end
  end.
Proof.
  intros K. unfold generateAsciiArtWith, bind at 1, liftExc. rewrite K.
  cbv zeta. cbn [seq maxRetries].
  rewrite attemptLoop_step.
  destruct (attemptOutcome textGeneration ai _ (networkCalls w)) as [e1|r];
    [|reflexivity].
  cbn [Nat.eqb maxRetries]. rewrite attemptLoop_step.
  unfold warned at 1. rewrite networkCalls_logged. unfold called at 1.
  rewrite networkCalls_sent.
  destruct (attemptOutcome textGeneration ai _ (S (networkCalls w))) as [e2|r];
    [|reflexivity].
  cbn [Nat.eqb maxRetries]. rewrite attemptLoop_step.
  unfold warned at 1. rewrite networkCalls_logged. unfold called at 1.
  rewrite networkCalls_sent.
  unfold warned at 1. rewrite networkCalls_logged. unfold called at 1.
  rewrite networkCalls_sent.
  destruct (attemptOutcome textGeneration ai _ (S (S (networkCalls w)))) as [e3|r];
    reflexivity.
Qed.

Lemma network_called ai p w :
  network (called ai p w) = network w ++ [GenerateContent ai (artRequest p)].
Proof. reflexivity. Qed.

Lemma network_warned attempt e w : network (warned attempt e w) = network w.
Proof. reflexivity. Qed.

Lemma network_gaveUp w : network (gaveUp w) = network w.
Proof. reflexivity. Qed.

Ltac network_norm :=
  repeat (rewrite network_called || rewrite network_warned
          || rewrite network_gaveUp);
  rewrite <- ?app_assoc; reflexivity.

(** C1. When the attempts before attempt [i + 1] fail and that attempt
    succeeds, [generateAsciiArt] returns the result of that attempt and
    has made exactly [i + 1] network calls: it returns at the first
    success. With [i = 2], attempts 1 and 2 fail, attempt 3 succeeds,
    its result is returned and exactly 3 calls are made. *)
Theorem generate_returns_first_success :
  forall textGeneration topic language apiKey style ai w i r,
    getAi apiKey = inr ai ->
    i < maxRetries ->
    (forall j, j < i ->
       exists e, attemptOutcome textGeneration ai (artPrompt topic language style)
                   (networkCalls w + j) = inl e) ->
    attemptOutcome textGeneration ai (artPrompt topic language style)
      (networkCalls w + i) = inr r ->
    exists w',
      generateAsciiArtWith textGeneration topic language apiKey style w = (inr r, w')
      /\ network w' =
         network w ++
         repeat (GenerateContent ai (artRequest (artPrompt topic language style))) (S i).
Proof.
  intros textGeneration topic language apiKey style ai w i r K Hi Hfail Hok.
  rewrite (@generate_run textGeneration topic language apiKey style ai w K). cbv zeta.
  destruct i as [|[|[|i]]]; [| | |unfold maxRetries in Hi; lia].
  - rewrite Nat.add_0_r in Hok. rewrite Hok. eexists. split; [reflexivity|].
    reflexivity.
  - destruct (Hfail 0) as [e1 H1]; [lia|]. rewrite Nat.add_0_r in H1.
    rewrite Nat.add_1_r in Hok. rewrite H1, Hok.
    eexists. split; [reflexivity|].
    network_norm.
  - destruct (Hfail 0) as [e1 H1]; [lia|]. rewrite Nat.add_0_r in H1.
    destruct (Hfail 1) as [e2 H2]; [lia|]. rewrite Nat.add_1_r in H2.
    replace (networkCalls w + 2) with (S (S (networkCalls w))) in Hok by lia.
    rewrite H1, H2, Hok.
    eexists. split; [reflexivity|].
    network_norm.
Qed.

(** C2. When all three attempts fail, [generateAsciiArt] fails with one
    error whose message names the 3 attempts and ends with the message
    of the failure of the last attempt (or with the fallback text when
    that failure is not an Error); the failures of attempts 1 and 2 do
    not appear in it. Exactly 3 network calls were made. *)
Theorem generate_fails_after_three_attempts :
  forall textGeneration topic language apiKey style ai w e1 e2 e3,
    getAi apiKey = inr ai ->
    attemptOutcome textGeneration ai (artPrompt topic language style)
      (networkCalls w) = inl e1 ->
    attemptOutcome textGeneration ai (artPrompt topic language style)
      (networkCalls w + 1) = inl e2 ->
    attemptOutcome textGeneration ai (artPrompt topic language style)
      (networkCalls w + 2) = inl e3 ->
    exists w',
      generateAsciiArtWith textGeneration topic language apiKey style w =
        (inl (JsError (str "Could not generate ASCII art after 3 attempts: "
                       +++ messageOr (str "Unknown error occurred") e3)), w')
      /\ network w' =
         network w ++
         repeat (GenerateContent ai (artRequest (artPrompt topic language style))) 3.
Proof.
  intros textGeneration topic language apiKey style ai w e1 e2 e3 K H1 H2 H3.
  rewrite (@generate_run textGeneration topic language apiKey style ai w K). cbv zeta.
  rewrite Nat.add_1_r in H2.
  replace (networkCalls w + 2) with (S (S (networkCalls w))) in H3 by lia.
  rewrite H1, H2, H3. eexists. split; [reflexivity|].
  network_norm.
Qed.

(** C3. Without a key (absent or empty), [generateAsciiArt] and
    [getRandomWord] fail with the error 'API Key is missing...' and
    leave the world as it was: no network call, no attempt, no retry. *)
Theorem missing_key_fails_before_any_call :
  forall textGeneration topic language apiKey style w,
    missing apiKey = true ->
    generateAsciiArtWith textGeneration topic language apiKey style w =
      (inl (JsError (str "API Key is missing. Please provide a valid API key.")), w)
    /\ getRandomWord language apiKey w =
      (inl (JsError (str "API Key is missing. Please provide a valid API key.")), w).
Proof.
  intros textGeneration topic language apiKey style w H.
  apply getAi_missing in H.
  unfold generateAsciiArtWith, getRandomWord, bind, liftExc. rewrite H.
  split; reflexivity.
Qed.

(** Validation of the parsed response. *)

Lemma buildResult_inv textGeneration pd r :
  buildResult textGeneration pd = inr r ->
  getField pd (str "art") = inr (VString (art r))
  /\ trim (art r) <> []
  /\ forall v, text r = Some v <->
       textGeneration = true /\ getField pd (str "text") = inr v /\ truthy v = true.
Proof.
  unfold buildResult.
  destruct (getField pd (str "art")) as [e|[| | | |a| |]]; try discriminate.
  destruct (trim a) as [|c m] eqn:T; [discriminate|]. cbn [length Nat.eqb].
  destruct textGeneration.
  - destruct (getField pd (str "text")) as [e|t]; [discriminate|].
    destruct (truthy t) eqn:Tr; intros [= <-]; cbn [art text];
      (split; [reflexivity|]); (split; [now rewrite T|]); intros v; split.
    + intros [= <-]. now repeat split.
    + intros (_ & [= <-] & _). reflexivity.
    + discriminate.
    + intros (_ & [= <-] & Tv). congruence.
  - intros [= <-]. cbn [art text].
    split; [reflexivity|]. split; [now rewrite T|].
    intros v. split; [discriminate | intros (F & _); discriminate].
Qed.

Lemma buildResult_rejects textGeneration props :
  (forall a, lookup (str "art") props = Some (VString a) -> trim a = []) ->
  buildResult textGeneration (VObject props) = inl invalidArt.
Proof.
  intros Bad. unfold buildResult. cbn [getField].
  destruct (lookup (str "art") props) as [[| | | |a| |]|]; try reflexivity.
  now rewrite (Bad a eq_refl).
Qed.

Lemma readResponse_inv textGeneration response r :
  readResponse textGeneration response = inr r ->
  exists t pd,
    responseText response = Some t
    /\ parseObject (unfence t) = inr pd
    /\ buildResult textGeneration pd = inr r.
Proof.
  unfold readResponse. destruct (responseText response) as [t|]; [|discriminate].
  cbn [definedText]. destruct (parseObject (unfence t)) as [e|pd] eqn:P; [discriminate|].
  intros H. exists t, pd. auto.
Qed.

Lemma attemptOutcome_inv textGeneration ai p n r :
  attemptOutcome textGeneration ai p n = inr r ->
  exists t pd,
    generateContent n ai (artRequest p) = inr {| responseText := Some t |}
    /\ parseObject (unfence t) = inr pd
    /\ buildResult textGeneration pd = inr r.
Proof.
  unfold attemptOutcome.
  destruct (generateContent n ai (artRequest p)) as [e|[rt]]; [discriminate|].
  intros H. apply readResponse_inv in H. destruct H as (t & pd & T & P & B).
  cbn [responseText] in T. subst rt. exists t, pd. auto.
Qed.

(** A result comes from one of the three attempts. *)
Lemma generate_success_inv textGeneration topic language apiKey style w r w' :
  generateAsciiArtWith textGeneration topic language apiKey style w = (inr r, w') ->
  exists ai i,
    getAi apiKey = inr ai /\ i < maxRetries
    /\ attemptOutcome textGeneration ai (artPrompt topic language style)
         (networkCalls w + i) = inr r.
Proof.
  destruct (getAi apiKey) as [e|ai] eqn:K.
  - unfold generateAsciiArtWith, bind, liftExc. rewrite K. discriminate.
  - rewrite (@generate_run textGeneration topic language apiKey style ai w K).
    cbv zeta. intros H. exists ai. unfold maxRetries.
    destruct (attemptOutcome textGeneration ai _ (networkCalls w)) as [e1|r1] eqn:O1.
    + destruct (attemptOutcome textGeneration ai _ (S (networkCalls w)))
        as [e2|r2] eqn:O2.
      * destruct (attemptOutcome textGeneration ai _ (S (S (networkCalls w))))
          as [e3|r3] eqn:O3; [discriminate|].
        injection H as <- _. exists 2. split; [reflexivity|]. split; [lia|].
        now replace (networkCalls w + 2) with (S (S (networkCalls w))) by lia.
      * injection H as <- _. exists 1. split; [reflexivity|]. split; [lia|].
        now rewrite Nat.add_1_r.
    + injection H as <- _. exists 0. split; [reflexivity|]. split; [lia|].
      now rewrite Nat.add_0_r.
Qed.

Lemma networkCalls_called ai p w : networkCalls (called ai p w) = S (networkCalls w).
Proof. apply networkCalls_sent. Qed.

Lemma networkCalls_warned attempt e w : networkCalls (warned attempt e w) = networkCalls w.
Proof. reflexivity. Qed.

Lemma networkCalls_gaveUp w : networkCalls (gaveUp w) = networkCalls w.
Proof. reflexivity. Qed.

Ltac calls_norm :=
  repeat (rewrite networkCalls_called || rewrite networkCalls_warned
          || rewrite networkCalls_gaveUp).

(** After [i + 1] failed attempts, with [i + 1] below the bound, a
    further call is made. *)
Lemma generate_retries textGeneration topic language apiKey style ai w i res w' :
  getAi apiKey = inr ai ->
  S i < maxRetries ->
  (forall j, j <= i ->
     exists e, attemptOutcome textGeneration ai (artPrompt topic language style)
                 (networkCalls w + j) = inl e) ->
  generateAsciiArtWith textGeneration topic language apiKey style w = (res, w') ->
  networkCalls w + i + 2 <= networkCalls w'.
Proof.
  intros K Hi Hfail.
  rewrite (@generate_run textGeneration topic language apiKey style ai w K).
  cbv zeta. destruct (Hfail 0) as [e1 H1]; [lia|]. rewrite Nat.add_0_r in H1.
  rewrite H1. unfold maxRetries in Hi.
  destruct i as [|[|i]]; [| |lia].
  - destruct (attemptOutcome textGeneration ai _ (S (networkCalls w))) as [e2|r2].
    + destruct (attemptOutcome textGeneration ai _ (S (S (networkCalls w))))
        as [e3|r3]; intros [= _ <-]; calls_norm; lia.
    + intros [= _ <-]. calls_norm. lia.
  - destruct (Hfail 1) as [e2 H2]; [lia|]. rewrite Nat.add_1_r in H2. rewrite H2.
    destruct (attemptOutcome textGeneration ai _ (S (S (networkCalls w))))
      as [e3|r3]; intros [= _ <-]; calls_norm; lia.
Qed.

(** C4. A result of [generateAsciiArt] has an [art] that is not empty
    after trimming. A parsed response whose [art] is absent, is not a
    string or is blank is rejected by the validation. Such a rejection
    is a failed attempt like any other: when attempts remain, one more
    network call follows it. *)
Theorem art_is_validated_and_rejection_retries :
  (forall textGeneration topic language apiKey style w r w',
      generateAsciiArtWith textGeneration topic language apiKey style w = (inr r, w') ->
      trim (art r) <> [])
  /\ (forall textGeneration props,
      (forall a, lookup (str "art") props = Some (VString a) -> trim a = []) ->
      buildResult textGeneration (VObject props) =
        inl (JsError (str "Invalid or empty ASCII art in response")))
  /\ (forall textGeneration topic language apiKey style ai w i t props res w',
      getAi apiKey = inr ai ->
      S i < maxRetries ->
      (forall j, j < i ->
         exists e, attemptOutcome textGeneration ai (artPrompt topic language style)
                     (networkCalls w + j) = inl e) ->
      generateContent (networkCalls w + i) ai
        (artRequest (artPrompt topic language style)) =
        inr {| responseText := Some t |} ->
      parseObject (unfence t) = inr (VObject props) ->
      (forall a, lookup (str "art") props = Some (VString a) -> trim a = []) ->
      generateAsciiArtWith textGeneration topic language apiKey style w = (res, w') ->
      networkCalls w + i + 2 <= networkCalls w').
Proof.
  split; [|split].
  - intros textGeneration topic language apiKey style w r w' H.
    apply generate_success_inv in H. destruct H as (ai & i & _ & _ & O).
    apply attemptOutcome_inv in O. destruct O as (t & pd & _ & _ & B).
    now apply buildResult_inv in B.
  - intros textGeneration props Bad. now apply buildResult_rejects.
  - intros textGeneration topic language apiKey style ai w i t props res w'
      K Hi Hfail Hcall Hparse Bad Hrun.
    apply (@generate_retries textGeneration topic language apiKey style ai w i res w');
      try assumption.
    intros j Hj. destruct (Nat.eq_dec j i) as [->|ne].
    + exists invalidArt. unfold attemptOutcome. rewrite Hcall.
      unfold readResponse. cbn [responseText definedText]. rewrite Hparse.
      now apply buildResult_rejects.
    + apply Hfail. lia.
Qed.

(** C6. A result of [generateAsciiArt] comes from the parsed response
    of one of the attempts: its [art] is the [art] of that response,
    and it has a [text] exactly when the text flag is on and the parsed
    response has a truthy [text], which it then carries. With the flag
    as the module sets it, no result has a [text]. *)
Theorem text_only_with_flag_and_upstream_text :
  (forall textGeneration topic language apiKey style w r w',
      generateAsciiArtWith textGeneration topic language apiKey style w = (inr r, w') ->
      exists ai i t parsedData,
        getAi apiKey = inr ai /\ i < maxRetries
        /\ generateContent (networkCalls w + i) ai
             (artRequest (artPrompt topic language style)) =
             inr {| responseText := Some t |}
        /\ parseObject (unfence t) = inr parsedData
        /\ getField parsedData (str "art") = inr (VString (art r))
        /\ forall v, text r = Some v <->
             textGeneration = true
             /\ getField parsedData (str "text") = inr v /\ truthy v = true)
  /\ (forall topic language apiKey style w r w',
      generateAsciiArt topic language apiKey style w = (inr r, w') ->
      text r = None).
Proof.
  assert (G : forall textGeneration topic language apiKey style w r w',
      generateAsciiArtWith textGeneration topic language apiKey style w = (inr r, w') ->
      exists ai i t parsedData,
        getAi apiKey = inr ai /\ i < maxRetries
        /\ generateContent (networkCalls w + i) ai
             (artRequest (artPrompt topic language style)) =
             inr {| responseText := Some t |}
        /\ parseObject (unfence t) = inr parsedData
        /\ getField parsedData (str "art") = inr (VString (art r))
        /\ forall v, text r = Some v <->
             textGeneration = true
             /\ getField parsedData (str "text") = inr v /\ truthy v = true).
  { intros textGeneration topic language apiKey style w r w' H.
    apply generate_success_inv in H. destruct H as (ai & i & K & Hi & O).
    apply attemptOutcome_inv in O. destruct O as (t & pd & C & P & B).
    apply buildResult_inv in B. destruct B as (A & _ & T).
    exists ai, i, t, pd. do 5 (split; [assumption|]). exact T. }
  split; [exact G|].
  intros topic language apiKey style w r w' H.
  apply G in H. destruct H as (ai & i & t & pd & _ & _ & _ & _ & _ & T).
  destruct (text r) as [v|]; [|reflexivity].
  destruct (proj1 (T v) eq_refl) as (F & _). discriminate.
Qed.

(** The streaming generator. *)

Lemma getAi_inr_present apiKey ai : getAi apiKey = inr ai -> missing apiKey = false.
Proof. destruct apiKey as [[|c k]|]; try discriminate. reflexivity. Qed.

Lemma consume_same_next fuel g1 w1 g2 w2 :
  next g1 w1 = next g2 w2 -> consume fuel g1 w1 = consume fuel g2 w2.
Proof. intros E. destruct fuel; [reflexivity|]. cbn [consume]. now rewrite E. Qed.

Lemma next_started topic language apiKey ai w response :
  getAi apiKey = inr ai ->
  generateContentStream (networkCalls w) ai (definitionRequest topic language)
    = inr response ->
  next (streamDefinition topic language apiKey) w =
  next (AtChunk topic response) (streamCalled ai topic language w).
Proof.
  intros K C. unfold streamDefinition. cbn [next].
  rewrite (getAi_inr_present _ K), K.
  unfold models_generateContentStream.
  change {| model := textModelName; contents := definitionPrompt topic language;
            config := noThinking |} with (definitionRequest topic language).
  now rewrite C.
Qed.

Lemma consume_until_failure topic e chunks : forall fuel w,
  length chunks + 2 <= fuel ->
  consume fuel (AtChunk topic (deliver chunks (StreamFail e))) w =
  Some (fragmentsOf chunks
          ++ [errorFragment topic (messageOr (str "An unknown error occurred.") e)],
        Failed (JsError (messageOr (str "An unknown error occurred.") e)),
        streamFailed e w).
Proof.
  induction chunks as [|chunk more IH]; intros fuel w F.
  - destruct fuel as [|[|fuel]]; [simpl in F; lia | simpl in F; lia|].
    reflexivity.
  - cbn [deliver fold_right fragmentsOf]. fold (deliver more (StreamFail e)).
    destruct (responseText chunk) as [[|c t]|] eqn:T.
    + rewrite <- (IH fuel w) by (simpl in F; lia).
      apply consume_same_next. cbn [next forAwait]. now rewrite T.
    + destruct fuel as [|fuel]; [simpl in F; lia|].
      cbn [consume next forAwait]. rewrite T.
      rewrite (IH fuel w) by (simpl in F; lia). reflexivity.
    + rewrite <- (IH fuel w) by (simpl in F; lia).
      apply consume_same_next. cbn [next forAwait]. now rewrite T.
Qed.

Lemma consume_until_end topic chunks : forall fuel w,
  length chunks + 1 <= fuel ->
  consume fuel (AtChunk topic (deliver chunks StreamEnd)) w =
  Some (fragmentsOf chunks, Completed, w).
Proof.
  induction chunks as [|chunk more IH]; intros fuel w F.
  - destruct fuel as [|fuel]; [simpl in F; lia|]. reflexivity.
  - cbn [deliver fold_right fragmentsOf]. fold (deliver more StreamEnd).
    destruct (responseText chunk) as [[|c t]|] eqn:T.
    + rewrite <- (IH fuel w) by (simpl in F; lia).
      apply consume_same_next. cbn [next forAwait]. now rewrite T.
    + destruct fuel as [|fuel]; [simpl in F; lia|].
      cbn [consume next forAwait]. rewrite T.
      rewrite (IH fuel w) by (simpl in F; lia). reflexivity.
    + rewrite <- (IH fuel w) by (simpl in F; lia).
      apply consume_same_next. cbn [next forAwait]. now rewrite T.
Qed.

(** C7. When the stream fails after it delivered some chunks, the
    consumer of [streamDefinition] sees, in this order: the fragments
    of the chunks delivered, one error fragment, and then the failure
    of the iteration, thrown with the message of the upstream failure.
    Nothing follows the error fragment, and one network call was made. *)
Theorem stream_failure_yields_error_fragment_then_throws :
  forall topic language apiKey ai w chunks e fuel,
    getAi apiKey = inr ai ->
    generateContentStream (networkCalls w) ai (definitionRequest topic language)
      = inr (deliver chunks (StreamFail e)) ->
    length chunks + 2 <= fuel ->
    consume fuel (streamDefinition topic language apiKey) w =
    Some (fragmentsOf chunks
            ++ [str "Error: Could not generate content for " +++ dq +++ topic +++ dq
                +++ str ". " +++ messageOr (str "An unknown error occurred.") e
                +++ str ". Please check if your API key is correct."],
          Failed (JsError (messageOr (str "An unknown error occurred.") e)),
          streamFailed e (streamCalled ai topic language w)).
Proof.
  intros topic language apiKey ai w chunks e fuel K C F.
  rewrite (consume_same_next fuel _ _ _ _ (@next_started topic language apiKey ai w _ K C)).
  now apply consume_until_failure.
Qed.

Lemma forAwait_yields_nonempty topic response : forall w f g w',
  forAwait topic response w = (Yielded f, g, w') -> f <> [].
Proof.
  induction response as [|e|chunk more IH]; intros w f g w'; cbn [forAwait].
  - discriminate.
  - unfold caught. intros [= <- _ _]. discriminate.
  - destruct (responseText chunk) as [[|c t]|]; try apply IH.
    intros [= <- _ _]. discriminate.
Qed.

Lemma next_yields_nonempty g w f g' w' :
  next g w = (Yielded f, g', w') -> f <> [].
Proof.
  destruct g as [topic language apiKey| |topic more|m|]; cbn [next];
    try discriminate.
  - destruct (missing apiKey).
    + intros [= <- _ _]. discriminate.
    + destruct (getAi apiKey) as [e|ai]; [discriminate|].
      destruct (models_generateContentStream ai _ w) as [[e|response] w1].
      * unfold caught. intros [= <- _ _]. discriminate.
      * apply forAwait_yields_nonempty.
  - apply forAwait_yields_nonempty.
Qed.

Lemma consume_yields_nonempty fuel : forall g w fragments c w',
  consume fuel g w = Some (fragments, c, w') ->
  Forall (fun f => f <> []) fragments.
Proof.
  induction fuel as [|fuel IH]; intros g w fragments c w'; cbn [consume].
  - discriminate.
  - destruct (next g w) as [[[f| |e] g1] w1] eqn:N.
    + destruct (consume fuel g1 w1) as [[[fs c1] w2]|] eqn:R; [|discriminate].
      intros [= <- _ _]. constructor.
      * now apply next_yields_nonempty in N.
      * now apply IH in R.
    + intros [= <- _ _]. constructor.
    + intros [= <- _ _]. constructor.
Qed.

Lemma consume_more_fuel fuel : forall fuel' g w res,
  consume fuel g w = Some res -> fuel <= fuel' -> consume fuel' g w = Some res.
Proof.
  induction fuel as [|fuel IH]; intros fuel' g w res; cbn [consume].
  - discriminate.
  - intros H L. destruct fuel' as [|fuel']; [lia|]. cbn [consume].
    destruct (next g w) as [[[f| |e] g1] w1]; try exact H.
    destruct (consume fuel g1 w1) as [[[fs c1] w2]|] eqn:R; [|discriminate].
    rewrite (IH fuel' g1 w1 _ R) by lia. exact H.
Qed.

Lemma consume_chunks_ends topic response : forall w,
  exists fuel res, consume fuel (AtChunk topic response) w = Some res.
Proof.
  induction response as [|e|chunk more IH]; intros w.
  - exists 1. eexists. reflexivity.
  - exists 2. eexists. reflexivity.
  - destruct (IH w) as (fuel & res & R).
    destruct (responseText chunk) as [[|c t]|] eqn:T.
    + exists fuel, res. rewrite <- R. apply consume_same_next.
      cbn [next forAwait]. now rewrite T.
    + exists (S fuel). destruct res as [[fs c1] w1].
      exists (((c :: t) :: fs), c1, w1).
      cbn [consume next forAwait]. rewrite T. now rewrite R.
    + exists fuel, res. rewrite <- R. apply consume_same_next.
      cbn [next forAwait]. now rewrite T.
Qed.

(** Reading the generator to its end takes finitely many steps. *)
Lemma consume_ends topic language apiKey w :
  exists fuel res,
    consume fuel (streamDefinition topic language apiKey) w = Some res.
Proof.
  destruct (missing apiKey) eqn:Mi.
  - exists 2. eexists. unfold streamDefinition. cbn [consume next].
    rewrite Mi. reflexivity.
  - destruct (getAi_present _ Mi) as [ai K].
    destruct (generateContentStream (networkCalls w) ai
                (definitionRequest topic language)) as [e|response] eqn:C.
    + exists 2. eexists. unfold streamDefinition. cbn [consume next].
      rewrite Mi, K. unfold models_generateContentStream.
      change {| model := textModelName; contents := definitionPrompt topic language;
                config := noThinking |} with (definitionRequest topic language).
      rewrite C. reflexivity.
    + destruct (consume_chunks_ends topic response
                  (streamCalled ai topic language w)) as (fuel & res & R).
      exists fuel, res. rewrite <- R. apply consume_same_next.
      now apply next_started.
Qed.

(** C10. Reading [streamDefinition] to its end always terminates, and
    no fragment that the consumer sees is the empty string. When the
    stream ends normally the fragments are the texts of the chunks
    that have a non-empty text, in order: a chunk without text, or with
    an empty one, is passed over. *)
Theorem stream_fragments_are_never_empty :
  (forall topic language apiKey w,
      exists fuel fragments c w',
        consume fuel (streamDefinition topic language apiKey) w
          = Some (fragments, c, w'))
  /\ (forall fuel topic language apiKey w fragments c w',
      consume fuel (streamDefinition topic language apiKey) w
        = Some (fragments, c, w') ->
      Forall (fun f => f <> []) fragments)
  /\ (forall topic language apiKey ai w chunks fuel,
      getAi apiKey = inr ai ->
      generateContentStream (networkCalls w) ai (definitionRequest topic language)
        = inr (deliver chunks StreamEnd) ->
      length chunks + 1 <= fuel ->
      consume fuel (streamDefinition topic language apiKey) w =
      Some (fragmentsOf chunks, Completed, streamCalled ai topic language w))
  /\ (forall more : list GenerateContentResponse,
      fragmentsOf ({| responseText := None |} :: more) = fragmentsOf more
      /\ fragmentsOf ({| responseText := Some [] |} :: more) = fragmentsOf more).
Proof.
  split; [|split; [|split]].
  - intros topic language apiKey w.
    destruct (consume_ends topic language apiKey w) as (fuel & [[fs c] w'] & R).
    now exists fuel, fs, c, w'.
  - intros fuel topic language apiKey w fragments c w'.
    apply consume_yields_nonempty.
  - intros topic language apiKey ai w chunks fuel K C F.
    rewrite (consume_same_next fuel _ _ _ _
               (@next_started topic language apiKey ai w _ K C)).
    now apply consume_until_end.
  - intros more. split; reflexivity.
Qed.

(** C8. Without a key, no operation makes a network call, and each
    reports the missing key: [generateAsciiArt] and [getRandomWord]
    throw the error 'API Key is missing...', and the generator of
    [streamDefinition] yields the one fragment 'Error: API_KEY is not
    configured...' and then ends. None goes through the path that
    handles a failed request. *)
Theorem missing_key_is_a_configuration_error :
  forall textGeneration topic language apiKey style w,
    missing apiKey = true ->
    generateAsciiArtWith textGeneration topic language apiKey style w =
      (inl (JsError (str "API Key is missing. Please provide a valid API key.")), w)
    /\ getRandomWord language apiKey w =
      (inl (JsError (str "API Key is missing. Please provide a valid API key.")), w)
    /\ forall fuel,
         consume (S (S fuel)) (streamDefinition topic language apiKey) w =
         Some ([str "Error: API_KEY is not configured. Please set your API key to continue."],
               Completed, w).
Proof.
  intros textGeneration topic language apiKey style w H.
  split; [|split].
  - apply getAi_missing in H.
    unfold generateAsciiArtWith, bind, liftExc. now rewrite H.
  - apply getAi_missing in H.
    unfold getRandomWord, bind, liftExc. now rewrite H.
  - intros fuel. unfold streamDefinition. cbn [consume next]. now rewrite H.
Qed.

(** The one request of [getRandomWord]. *)
Lemma getRandomWord_run language apiKey ai w :
  getAi apiKey = inr ai ->
  getRandomWord language apiKey w =
  let w1 := sent (GenerateContent ai (randomWordRequest language)) w in
  match generateContent (networkCalls w) ai (randomWordRequest language) with
  | inr {| responseText := Some t |} => (inr (trim t), w1)
  | inr {| responseText := None |} =>
      let e := JsError (typeErrorMessage VUndefined (str "trim")) in
      (inl (JsError (str "Could not get random word: "
                     +++ typeErrorMessage VUndefined (str "trim"))),
       logged (ConsoleError (str "Error getting random word from Gemini:") (Some e)) w1)
  | inl e =>
      (inl (JsError (str "Could not get random word: "
                     +++ messageOr (str "An unknown error occurred.") e)),
       logged (ConsoleError (str "Error getting random word from Gemini:") (Some e)) w1)
  end.
Proof.
  intros K. unfold getRandomWord, bind at 1, liftExc. rewrite K.
  cbv zeta. unfold tryCatch, bind, models_generateContent.
  change {| model := textModelName; contents := randomWordPrompt language;
            config := noThinking |} with (randomWordRequest language).
  destruct (generateContent (networkCalls w) ai (randomWordRequest language))
    as [e|[[t|]]]; reflexivity.
Qed.

(** C9, amended. [getRandomWord] makes at most one network call and
    never a second one. With a key it sends exactly one request: on
    success it returns the text of the response with the white space
    around it trimmed; when the request fails, or the response has no
    text, it fails with 'Could not get random word: ' followed by the
    message of the underlying Error (or by a fixed text when what was
    thrown is not an Error), and returns nothing else. Without a key
    it fails with the error 'API Key is missing...', not wrapped,
    before any call. *)
Theorem getRandomWord_is_single_shot :
  (forall language apiKey w res w',
      getRandomWord language apiKey w = (res, w') ->
      networkCalls w' <= networkCalls w + 1)
  /\ (forall language apiKey ai w,
      getAi apiKey = inr ai ->
      network (snd (getRandomWord language apiKey w)) =
      network w ++ [GenerateContent ai (randomWordRequest language)])
  /\ (forall language apiKey ai w t,
      getAi apiKey = inr ai ->
      generateContent (networkCalls w) ai (randomWordRequest language)
        = inr {| responseText := Some t |} ->
      fst (getRandomWord language apiKey w) = inr (trim t))
  /\ (forall language apiKey ai w e,
      getAi apiKey = inr ai ->
      generateContent (networkCalls w) ai (randomWordRequest language) = inl e ->
      fst (getRandomWord language apiKey w) =
      inl (JsError (str "Could not get random word: "
                    +++ messageOr (str "An unknown error occurred.") e)))
  /\ (forall language apiKey ai w,
      getAi apiKey = inr ai ->
      generateContent (networkCalls w) ai (randomWordRequest language)
        = inr {| responseText := None |} ->
      fst (getRandomWord language apiKey w) =
      inl (JsError (str "Could not get random word: "
                    +++ typeErrorMessage VUndefined (str "trim"))))
  /\ (forall language apiKey w,
      missing apiKey = true ->
      getRandomWord language apiKey w =
      (inl (JsError (str "API Key is missing. Please provide a valid API key.")), w)).
Proof.
  repeat split.
  - intros language apiKey w res w'. destruct (getAi apiKey) as [e|ai] eqn:K.
    + unfold getRandomWord, bind, liftExc. rewrite K. intros [= _ <-]. lia.
    + rewrite (@getRandomWord_run language apiKey ai w K). cbv zeta.
      destruct (generateContent (networkCalls w) ai (randomWordRequest language))
        as [e|[[t|]]]; intros [= _ <-];
        rewrite ?networkCalls_logged, networkCalls_sent; lia.
  - intros language apiKey ai w K.
    rewrite (@getRandomWord_run language apiKey ai w K). cbv zeta.
    destruct (generateContent (networkCalls w) ai (randomWordRequest language))
      as [e|[[t|]]]; reflexivity.
  - intros language apiKey ai w t K C.
    rewrite (@getRandomWord_run language apiKey ai w K). cbv zeta.
    now rewrite C.
  - intros language apiKey ai w e K C.
    rewrite (@getRandomWord_run language apiKey ai w K). cbv zeta.
    now rewrite C.
  - intros language apiKey ai w K C.
    rewrite (@getRandomWord_run language apiKey ai w K). cbv zeta.
    now rewrite C.
  - intros language apiKey w H. apply getAi_missing in H.
    unfold getRandomWord, bind, liftExc. now rewrite H.
Qed.

(** Further properties of the fence step. *)

Lemma stripPrefix_app_some p : forall b r x,
  stripPrefix p b = Some r -> stripPrefix p (b ++ x) = Some (r ++ x).
Proof.
  intros b r x H. apply stripPrefix_spec in H. subst b.
  rewrite <- app_assoc. apply stripPrefix_app.
Qed.

Lemma stripPrefix_app_none p h : forall b x,
  Forall (fun c => c <> h) p ->
  stripPrefix p b = None -> stripPrefix p (b ++ h :: x) = None.
Proof.
  induction p as [|a p IH]; intros b x F H.
  - destruct b; discriminate.
  - inversion F as [|? ? Na F']; subst. destruct b as [|y b]; simpl.
    + destruct (N.eqb_spec a h) as [->|_]; [now elim Na | reflexivity].
    + simpl in H. destruct (N.eqb a y); [now apply IH | reflexivity].
Qed.

Lemma json_has_no (h : N) :
  h <> 106%N -> h <> 115%N -> h <> 111%N -> h <> 110%N ->
  Forall (fun c => c <> h) (str "json").
Proof.
  intros. change (str "json") with [106; 115; 111; 110]%N.
  repeat (constructor; [congruence|]). constructor.
Qed.

(** X1. The fence pattern matches exactly the texts that open with
    three backticks, optionally followed by the label json, and close
    with three backticks; the label is taken whenever it is there.
    Group 1 always takes part and is the text in between, trimmed. *)
Theorem fence_pattern_matches_fenced_texts :
  forall s,
    (forall c,
        Regex.exec fenceRegex s = Some (Some c) <->
        exists body,
          c = trim body
          /\ (s = str "```json" +++ body +++ str "```"
              \/ (s = str "```" +++ body +++ str "```"
                  /\ startsWith (str "json") body = false)))
    /\ Regex.exec fenceRegex s <> Some None.
Proof.
  intros s. rewrite exec_fenceRegex. split.
  - intros c. unfold fenceBody. split.
    + destruct (stripPrefix fence s) as [a|] eqn:P; [|discriminate].
      apply stripPrefix_spec in P.
      destruct (stripPrefix (str "json") a) as [r|] eqn:J.
      * destruct (stripSuffix fence r) as [b|] eqn:Q; [|discriminate].
        intros [= <-]. exists b. split; [reflexivity|]. left.
        apply stripPrefix_spec in J. apply stripSuffix_spec in Q.
        subst s a r. reflexivity.
      * destruct (stripSuffix fence a) as [b|] eqn:Q; [|discriminate].
        intros [= <-]. exists b. split; [reflexivity|]. right.
        apply stripSuffix_spec in Q. subst s a. split; [reflexivity|].
        unfold startsWith. destruct (stripPrefix (str "json") b) as [r|] eqn:J';
          [|reflexivity].
        rewrite (stripPrefix_app_some _ _ fence J') in J. discriminate.
    + intros (body & -> & [->|[-> N]]).
      * change (str "```json" ++ body ++ str "```")
          with (fence ++ str "json" ++ body ++ fence).
        rewrite stripPrefix_app, stripPrefix_app.
        now rewrite (proj2 (stripSuffix_spec fence (body ++ fence) body) eq_refl).
      * change (str "```" ++ body ++ str "```") with (fence ++ body ++ fence).
        rewrite stripPrefix_app.
        unfold startsWith in N.
        destruct (stripPrefix (str "json") body) eqn:J; [discriminate|].
        assert (J2 : stripPrefix (str "json") (body ++ fence) = None).
        { change fence with (96%N :: [96; 96]%N).
          apply stripPrefix_app_none; [apply json_has_no; discriminate | exact J]. }
        rewrite J2.
        now rewrite (proj2 (stripSuffix_spec fence (body ++ fence) body) eq_refl).
  - destruct (fenceBody s); discriminate.
Qed.




(** X3. An empty code block and a code block inside a code block are
    rejected before the JSON parser is called: only one layer of
    fence is removed, and an empty content is not taken. *)
Theorem empty_or_nested_code_block_is_rejected :
  (forall labelled inner,
      blank inner ->
      parseObject (unfence (codeBlock labelled inner)) =
      inl (JsError (str "Response is not a valid JSON object")))
  /\ (forall outer labelled inner,
      unfence (codeBlock outer (codeBlock labelled inner)) =
        codeBlock labelled inner
      /\ parseObject (unfence (codeBlock outer (codeBlock labelled inner))) =
         inl (JsError (str "Response is not a valid JSON object"))).
Proof.
  split.
  - intros labelled inner B. rewrite unfence_codeBlock, (trim_blank B).
    reflexivity.
  - intros outer labelled inner.
    rewrite unfence_codeBlock, trim_codeBlock.
    split; reflexivity.
Qed.

(** Further properties of the retry loop. *)

Lemma console_called ai p w : console (called ai p w) = console w.
Proof. reflexivity. Qed.

Lemma console_warned attempt e w :
  console (warned attempt e w) =
  console w ++ [ConsoleWarn
                  (str "Attempt " +++ decimal attempt +++ str "/"
                   +++ decimal maxRetries +++ str " failed:")
                  (messageOr (str "Unknown error occurred") e)].
Proof. reflexivity. Qed.

(** X4. With a key, a run of [generateAsciiArt] makes at least one and
    at most three network calls, all with the same request (model,
    prompt and configuration); a run that fails has made all three. *)
Theorem generate_makes_one_to_three_identical_calls :
  forall textGeneration topic language apiKey style ai w res w',
    getAi apiKey = inr ai ->
    generateAsciiArtWith textGeneration topic language apiKey style w = (res, w') ->
    exists k,
      1 <= k <= maxRetries
      /\ network w' =
         network w ++
         repeat (GenerateContent ai (artRequest (artPrompt topic language style))) k
      /\ (forall e, res = inl e -> k = maxRetries).
Proof.
  intros textGeneration topic language apiKey style ai w res w' K.
  rewrite (@generate_run textGeneration topic language apiKey style ai w K).
  cbv zeta. unfold maxRetries.
  destruct (attemptOutcome textGeneration ai _ (networkCalls w)) as [e1|r1].
  - destruct (attemptOutcome textGeneration ai _ (S (networkCalls w))) as [e2|r2].
    + destruct (attemptOutcome textGeneration ai _ (S (S (networkCalls w))))
        as [e3|r3]; intros [= <- <-]; exists 3;
        (split; [lia|]); (split; [network_norm|]); [reflexivity | discriminate].
    + intros [= <- <-]. exists 2. split; [lia|]. split; [network_norm|].
      discriminate.
  - intros [= <- <-]. exists 1. split; [lia|]. split; [network_norm|].
    discriminate.
Qed.

(** X5. [generateAsciiArt] fails in two ways only: with the error for
    a missing key, before any call, or, after exactly three calls, with
    the error 'Could not generate ASCII art after 3 attempts: ...'. The
    error of an attempt is never thrown as it is, and the fallback
    error after the loop, 'All retry attempts failed', is never
    thrown. *)
Theorem generate_fails_in_two_ways_only :
  forall textGeneration topic language apiKey style w e w',
    generateAsciiArtWith textGeneration topic language apiKey style w = (inl e, w') ->
    ((missing apiKey = true
      /\ e = JsError (str "API Key is missing. Please provide a valid API key.")
      /\ w' = w)
     \/ (missing apiKey = false
         /\ (exists m,
               e = JsError (str "Could not generate ASCII art after 3 attempts: "
                            +++ m))
         /\ networkCalls w' = networkCalls w + 3))
    /\ e <> JsError (str "All retry attempts failed").
Proof.
  intros textGeneration topic language apiKey style w e w' H.
  assert (D : (missing apiKey = true
      /\ e = JsError (str "API Key is missing. Please provide a valid API key.")
      /\ w' = w)
     \/ (missing apiKey = false
         /\ (exists m,
               e = JsError (str "Could not generate ASCII art after 3 attempts: "
                            +++ m))
         /\ networkCalls w' = networkCalls w + 3)).
  { destruct (missing apiKey) eqn:Mi.
    - left. apply getAi_missing in Mi.
      unfold generateAsciiArtWith, bind, liftExc in H. rewrite Mi in H.
      injection H as <- <-. auto.
    - right. destruct (getAi_present _ Mi) as [ai K].
      rewrite (@generate_run textGeneration topic language apiKey style ai w K) in H.
      cbv zeta in H.
      destruct (attemptOutcome textGeneration ai _ (networkCalls w)) as [e1|r1];
        [|discriminate].
      destruct (attemptOutcome textGeneration ai _ (S (networkCalls w)))
        as [e2|r2]; [|discriminate].
      destruct (attemptOutcome textGeneration ai _ (S (S (networkCalls w))))
        as [e3|r3]; [|discriminate].
      injection H as <- <-. split; [reflexivity|]. split.
      + now eexists.
      + calls_norm. lia. }
  split; [exact D|].
  destruct D as [(_ & -> & _)|(_ & [m ->] & _)]; discriminate.
Qed.

(** X6. The console tells the attempts apart: every failed attempt
    leaves one warning 'Attempt k/3 failed:' with the message of its
    failure, in order, and nothing else is logged, except that after
    the third failure one error entry closes the run. *)
Theorem generate_logs_one_warning_per_failed_attempt :
  forall textGeneration topic language apiKey style ai w errors,
    getAi apiKey = inr ai ->
    (forall j e, nth_error errors j = Some e ->
       attemptOutcome textGeneration ai (artPrompt topic language style)
         (networkCalls w + j) = inl e) ->
    (length errors < maxRetries ->
     (exists r, attemptOutcome textGeneration ai (artPrompt topic language style)
                  (networkCalls w + length errors) = inr r) ->
     console (snd (generateAsciiArtWith textGeneration topic language apiKey style w))
     = console w ++ warnings 1 errors)
    /\ (length errors = maxRetries ->
        console (snd (generateAsciiArtWith textGeneration topic language apiKey
                        style w))
        = console w ++ warnings 1 errors
          ++ [ConsoleError
                (str "All retry attempts failed for ASCII art generation") None]).
Proof.
  intros textGeneration topic language apiKey style ai w errors K F.
  rewrite (@generate_run textGeneration topic language apiKey style ai w K).
  cbv zeta. unfold maxRetries.
  assert (N1 : networkCalls w + 1 = S (networkCalls w)) by lia.
  assert (N2 : networkCalls w + 2 = S (S (networkCalls w))) by lia.
  destruct errors as [|e1 [|e2 [|e3 [|e4 errors]]]]; cbn [length];
    (split; [intros L [r R] | intros L]); try lia.
  - rewrite Nat.add_0_r in R. rewrite R. cbn [snd warnings].
    now rewrite console_called, app_nil_r.
  - pose proof (F 0 e1 eq_refl) as F0. rewrite Nat.add_0_r in F0.
    rewrite N1 in R. rewrite F0, R. cbn [snd warnings].
    rewrite console_called, console_warned, console_called. reflexivity.
  - pose proof (F 0 e1 eq_refl) as F0. rewrite Nat.add_0_r in F0.
    pose proof (F 1 e2 eq_refl) as F1. rewrite N1 in F1.
    rewrite N2 in R. rewrite F0, F1, R. cbn [snd warnings].
    rewrite console_called, console_warned, console_called, console_warned,
      console_called, <- app_assoc. reflexivity.
  - pose proof (F 0 e1 eq_refl) as F0. rewrite Nat.add_0_r in F0.
    pose proof (F 1 e2 eq_refl) as F1. rewrite N1 in F1.
    pose proof (F 2 e3 eq_refl) as F2. rewrite N2 in F2.
    rewrite F0, F1, F2. cbn [snd warnings]. unfold gaveUp, logged.
    cbn [console].
    rewrite console_warned, console_called, console_warned, console_called,
      console_warned, console_called, <- !app_assoc. reflexivity.
Qed.

(** Further properties of streaming. *)

Lemma forAwait_network topic response : forall w r g w',
  forAwait topic response w = (r, g, w') -> started g /\ network w' = network w.
Proof.
  induction response as [|e|chunk more IH]; intros w r g w'; cbn [forAwait].
  - intros [= _ <- <-]. now split.
  - unfold caught. intros [= _ <- <-]. now split.
  - destruct (responseText chunk) as [[|c t]|]; try apply IH.
    intros [= _ <- <-]. now split.
Qed.

Lemma next_network g w r g' w' :
  started g -> next g w = (r, g', w') -> started g' /\ network w' = network w.
Proof.
  destruct g as [topic language apiKey| |topic more|m|]; cbn [started next];
    intros S; try (intros [= _ <- <-]; now split).
  - elim S.
  - apply forAwait_network.
Qed.

Lemma consume_network fuel : forall g w fragments c w',
  started g -> consume fuel g w = Some (fragments, c, w') ->
  network w' = network w.
Proof.
  induction fuel as [|fuel IH]; intros g w fragments c w' S; cbn [consume].
  - discriminate.
  - destruct (next g w) as [[r g1] w1] eqn:N.
    destruct (next_network _ _ S N) as [S1 N1].
    destruct r as [f| |e].
    + destruct (consume fuel g1 w1) as [[[fs c1] w2]|] eqn:R; [|discriminate].
      intros [= _ _ <-]. rewrite (IH _ _ _ _ _ S1 R). exact N1.
    + intros [= _ _ <-]. exact N1.
    + intros [= _ _ <-]. exact N1.
Qed.

(** X7. With a key, reading [streamDefinition] to its end makes
    exactly one network call, the stream request for the topic and the
    language, however the stream goes: there is no retry and no second
    request. *)
Theorem stream_makes_exactly_one_call :
  forall topic language apiKey ai w fuel fragments c w',
    getAi apiKey = inr ai ->
    consume fuel (streamDefinition topic language apiKey) w
      = Some (fragments, c, w') ->
    network w' =
    network w ++ [GenerateContentStream ai (definitionRequest topic language)].
Proof.
  intros topic language apiKey ai w fuel fragments c w' K.
  destruct fuel as [|fuel]; [discriminate|].
  unfold streamDefinition. cbn [consume next].
  rewrite (getAi_inr_present _ K), K. unfold models_generateContentStream.
  change {| model := textModelName; contents := definitionPrompt topic language;
            config := noThinking |} with (definitionRequest topic language).
  set (w1 := sent (GenerateContentStream ai (definitionRequest topic language)) w).
  assert (Hrest : forall r g w2,
             started g -> network w2 = network w1 ->
             match r with
             | Yielded f =>
                 match consume fuel g w2 with
                 | Some (fs', c', w'') => Some (f :: fs', c', w'')
                 | None => None
                 end
             | Returned => Some ([], Completed, w2)
             | Threw e => Some ([], Failed e, w2)
             end = Some (fragments, c, w') -> network w' = network w1).
  { intros r g w2 S N. destruct r as [f| |e].
    - destruct (consume fuel g w2) as [[[fs' c'] w'']|] eqn:R; [|discriminate].
      intros [= _ _ <-]. now rewrite (consume_network _ _ _ S R).
    - now intros [= _ _ <-].
    - now intros [= _ _ <-]. }
  destruct (generateContentStream (networkCalls w) ai
              (definitionRequest topic language)) as [e|response].
  - unfold caught.
    apply (Hrest (Yielded _) (AtErrorMessage _) (logged _ w1) I eq_refl).
  - destruct (forAwait topic response w1) as [[r g] w2] eqn:A.
    destruct (forAwait_network _ _ _ A) as [S N].
    apply (Hrest r g w2 S N).
Qed.

(** X8. When the stream request itself is rejected, the consumer sees
    the error fragment alone and then the failure, with the message of
    the rejection (or a fixed text when what was thrown is not an
    Error). *)
Theorem stream_request_rejected :
  forall topic language apiKey ai w e fuel,
    getAi apiKey = inr ai ->
    generateContentStream (networkCalls w) ai (definitionRequest topic language)
      = inl e ->
    2 <= fuel ->
    consume fuel (streamDefinition topic language apiKey) w =
    Some ([errorFragment topic (messageOr (str "An unknown error occurred.") e)],
          Failed (JsError (messageOr (str "An unknown error occurred.") e)),
          streamFailed e (streamCalled ai topic language w)).
Proof.
  intros topic language apiKey ai w e fuel K C F.
  destruct fuel as [|[|fuel]]; [lia | lia |].
  unfold streamDefinition. cbn [consume next].
  rewrite (getAi_inr_present _ K), K. unfold models_generateContentStream.
  change {| model := textModelName; contents := definitionPrompt topic language;
            config := noThinking |} with (definitionRequest topic language).
  rewrite C. reflexivity.
Qed.

Lemma concat_fragmentsOf chunks :
  concat (fragmentsOf chunks) = concat (map chunkText chunks).
Proof.
  induction chunks as [|chunk more IH]; [reflexivity|].
  cbn [fragmentsOf map concat]. unfold chunkText at 1.
  destruct (responseText chunk) as [[|c t]|]; cbn [concat app];
    now rewrite IH.
Qed.

(** X9. Passing over the chunks without text loses nothing: the
    fragments of a stream that ends normally, put together, are the
    texts of all its chunks put together. When the stream breaks, the
    text seen is the text delivered so far followed by the error
    fragment. *)
Theorem stream_fragments_carry_all_the_text :
  forall topic language apiKey ai w chunks fuel fragments c w',
    getAi apiKey = inr ai ->
    consume fuel (streamDefinition topic language apiKey) w
      = Some (fragments, c, w') ->
    (generateContentStream (networkCalls w) ai (definitionRequest topic language)
       = inr (deliver chunks StreamEnd) ->
     concat fragments = concat (map chunkText chunks) /\ c = Completed)
    /\ (forall e,
        generateContentStream (networkCalls w) ai (definitionRequest topic language)
          = inr (deliver chunks (StreamFail e)) ->
        concat fragments =
          concat (map chunkText chunks)
          ++ errorFragment topic (messageOr (str "An unknown error occurred.") e)
        /\ c = Failed (JsError (messageOr (str "An unknown error occurred.") e))).
Proof.
  intros topic language apiKey ai w chunks fuel fragments c w' K R.
  split.
  - intros C.
    pose proof (@consume_more_fuel fuel (Nat.max fuel (length chunks + 1)) _ _ _ R
                  (Nat.le_max_l _ _)) as R1.
    rewrite (consume_same_next _ _ _ _ _
               (@next_started topic language apiKey ai w _ K C)) in R1.
    rewrite consume_until_end in R1 by apply Nat.le_max_r.
    injection R1 as <- <- _. split; [apply concat_fragmentsOf | reflexivity].
  - intros e C.
    pose proof (@consume_more_fuel fuel (Nat.max fuel (length chunks + 2)) _ _ _ R
                  (Nat.le_max_l _ _)) as R1.
    rewrite (consume_same_next _ _ _ _ _
               (@next_started topic language apiKey ai w _ K C)) in R1.
    rewrite consume_until_failure in R1 by apply Nat.le_max_r.
    injection R1 as <- <- _. split; [|reflexivity].
    rewrite concat_app, concat_fragmentsOf. cbn [concat]. now rewrite app_nil_r.
Qed.

(** Further properties of [getRandomWord] and of the style table. *)

Lemma trimStart_idem s : trimStart (trimStart s) = trimStart s.
Proof.
  induction s as [|c s IH]; [reflexivity|]. cbn [trimStart].
  destruct (isWhiteSpace c) eqn:W; [exact IH|]. cbn [trimStart]. now rewrite W.
Qed.

(** X10. The word that [getRandomWord] returns has no white space
    around it, and it is not checked any further: for a response that
    is all white space the call succeeds with the empty string. *)
Theorem getRandomWord_returns_a_trimmed_word :
  (forall language apiKey w word,
      fst (getRandomWord language apiKey w) = inr word ->
      trimStart word = word /\ trimEnd word = word)
  /\ (forall language apiKey ai w t,
      getAi apiKey = inr ai ->
      generateContent (networkCalls w) ai (randomWordRequest language)
        = inr {| responseText := Some t |} ->
      blank t ->
      fst (getRandomWord language apiKey w) = inr []).
Proof.
  split.
  - intros language apiKey w word. destruct (getAi apiKey) as [e|ai] eqn:K.
    + unfold getRandomWord, bind, liftExc. rewrite K. discriminate.
    + rewrite (@getRandomWord_run language apiKey ai w K). cbv zeta.
      destruct (generateContent (networkCalls w) ai (randomWordRequest language))
        as [e|[[t|]]]; try discriminate.
      cbn [fst]. intros [= <-]. unfold trim. split.
      * apply trimStart_trimEnd.
      * apply trimEnd_idem.
  - intros language apiKey ai w t K C B.
    rewrite (@getRandomWord_run language apiKey ai w K). cbv zeta.
    rewrite C. cbn [fst]. now rewrite (trim_blank B).
Qed.

(** X11. The topic enters the style directive for the style Abstract
    only: for every other style name the directive is the same
    whatever the topic is. *)
Theorem style_directive_ignores_topic_unless_abstract :
  forall style topic1 topic2,
    JsString.eqb style (str "Abstract") = false ->
    styleInstructionFor style topic1 = styleInstructionFor style topic2.
Proof.
  intros style topic1 topic2 H. unfold styleInstructionFor. now rewrite H.
Qed.

(** X12. Style names are matched exactly: every name that the switch
    does not list gets the directive of Minimalist. Every directive,
    for every name, starts with a line break and its Style line. *)
Theorem unknown_style_falls_back_to_minimalist :
  forall style topic,
    (existsb (JsString.eqb style) knownStyles = false ->
     styleInstructionFor style topic = styleInstructionFor (str "Minimalist") topic)
    /\ startsWith (nl +++ str "  - Style: ") (styleInstructionFor style topic) = true.
Proof.
  intros style topic. split.
  - unfold knownStyles. cbn [map existsb]. rewrite !orb_false_iff.
    intros H. decompose [and] H. clear H. unfold styleInstructionFor.
    repeat match goal with
           | E : JsString.eqb style ?s = false |- _ => rewrite E; clear E
           end.
    reflexivity.
  - unfold styleInstructionFor.
    repeat match goal with
           | |- context [if JsString.eqb style ?s then _ else _] =>
               destruct (JsString.eqb style s)
           end; reflexivity.
Qed.

(** X15. White space around the response text never matters: an
    attempt reads a response with blanks or line breaks before and
    after it exactly as it reads the response without them. *)
Theorem white_space_around_the_response_is_ignored :
  forall textGeneration before after t,
    blank before -> blank after ->
    readResponse textGeneration {| responseText := Some (before +++ t +++ after) |}
    = readResponse textGeneration {| responseText := Some t |}.
Proof.
  intros textGeneration before after t B A.
  unfold readResponse. cbn [responseText definedText].
  now rewrite !unfence_fenceBody, (trim_between t B A).
Qed.

(** X16. The art is returned as the response has it, with its leading
    and trailing white space: it is trimmed for the emptiness check
    only. As shipped, with the text flag off, the result has no [text]
    even when the response has one. *)
Theorem valid_art_is_returned_unchanged :
  forall topic language apiKey style ai w t props a,
    getAi apiKey = inr ai ->
    generateContent (networkCalls w) ai (artRequest (artPrompt topic language style))
      = inr {| responseText := Some t |} ->
    parseObject (unfence t) = inr (VObject props) ->
    lookup (str "art") props = Some (VString a) ->
    trim a <> [] ->
    fst (generateAsciiArt topic language apiKey style w)
    = inr {| art := a; text := None |}.
Proof.
  intros topic language apiKey style ai w t props a K C P L T.
  unfold generateAsciiArt.
  rewrite (@generate_run ENABLE_ASCII_TEXT_GENERATION topic language apiKey style
             ai w K).
  cbv zeta. unfold attemptOutcome at 1. rewrite C.
  unfold readResponse. cbn [responseText definedText]. rewrite P.
  unfold buildResult. cbn [getField]. rewrite L.
  destruct (trim a) as [|c m]; [now elim T|]. reflexivity.
Qed.

End Service.

(** ** The properties on a concrete service *)

(** Attempts 1 and 2 fail, attempt 3 answers with the cat in a code
    block: the cat is returned after exactly three calls. *)
Lemma generate_returns_first_success_witness :
  let p := artPrompt (str "cat") (str "English")
             (str "Minimalist") in
  let outcome := attemptOutcome Sample.JSON_parse Sample.typeErrorMessage
                   (Sample.scripted Sample.flaky) false Sample.ai p in
  outcome 0 = inl (JsError (str "Response is not a valid JSON object"))
  /\ outcome 1 = inl (JsError (str "fetch failed"))
  /\ outcome 2 = inr {| art := str "=^.^="; text := None |}
  /\ exists w',
       generateAsciiArtWith Sample.JSON_parse Sample.typeErrorMessage (Sample.scripted Sample.flaky) false
         (str "cat") (str "English") Sample.key (str "Minimalist") Sample.start
       = (inr {| art := str "=^.^="; text := None |}, w')
       /\ network w' = network Sample.start
                       ++ repeat (GenerateContent Sample.ai (artRequest p)) 3.
Proof.
  cbv zeta. split; [vm_compute; reflexivity|].
  split; [vm_compute; reflexivity|]. split; [vm_compute; reflexivity|].
  apply (@generate_returns_first_success Sample.JSON_parse Sample.typeErrorMessage (Sample.scripted Sample.flaky) false
           (str "cat") (str "English") Sample.key (str "Minimalist") Sample.ai
           Sample.start 2).
  - reflexivity.
  - unfold maxRetries. lia.
  - intros j Hj. destruct j as [|[|j]].
    + eexists. vm_compute. reflexivity.
    + eexists. vm_compute. reflexivity.
    + lia.
  - vm_compute. reflexivity.
Defined.

(** All three attempts fail: the error names the 3 attempts and ends
    with the message of the third failure, the blank art. *)
Lemma generate_fails_after_three_attempts_witness :
  let p := artPrompt (str "cat") (str "English")
             (str "Minimalist") in
  let outcome := attemptOutcome Sample.JSON_parse Sample.typeErrorMessage
                   (Sample.scripted Sample.broken) false Sample.ai p in
  outcome 0 = inl (JsError (str "fetch failed"))
  /\ outcome 1 = inl (JsError (str "Response is not a valid JSON object"))
  /\ outcome 2 = inl (JsError (str "Invalid or empty ASCII art in response"))
  /\ exists w',
       generateAsciiArtWith Sample.JSON_parse Sample.typeErrorMessage (Sample.scripted Sample.broken) false
         (str "cat") (str "English") Sample.key (str "Minimalist") Sample.start
       = (inl (JsError
                 (str "Could not generate ASCII art after 3 attempts: Invalid or empty ASCII art in response")),
          w')
       /\ network w' = network Sample.start
                       ++ repeat (GenerateContent Sample.ai (artRequest p)) 3.
Proof.
  cbv zeta. split; [vm_compute; reflexivity|].
  split; [vm_compute; reflexivity|]. split; [vm_compute; reflexivity|].
  apply (@generate_fails_after_three_attempts Sample.JSON_parse
           Sample.typeErrorMessage
           (Sample.scripted Sample.broken) false
           (str "cat") (str "English") Sample.key (str "Minimalist") Sample.ai
           Sample.start
           (JsError (str "fetch failed"))
           (JsError (str "Response is not a valid JSON object"))
           (JsError (str "Invalid or empty ASCII art in response")));
    vm_compute; reflexivity.
Defined.

(** No key at all: both operations fail at once, on a service that
    would have answered. *)
Lemma missing_key_fails_before_any_call_witness :
  missing None = true
  /\ generateAsciiArtWith Sample.JSON_parse Sample.typeErrorMessage (Sample.scripted [Sample.replies Sample.catJson])
       false (str "cat") (str "English") None (str "Minimalist") Sample.start
     = (inl (JsError (str "API Key is missing. Please provide a valid API key.")),
        Sample.start)
  /\ getRandomWord Sample.typeErrorMessage
       (Sample.scripted [Sample.replies (str "cat")]) (str "English") None
       Sample.start
     = (inl (JsError (str "API Key is missing. Please provide a valid API key.")),
        Sample.start).
Proof.
  split; [reflexivity|]. split.
  - apply (proj1 (@missing_key_fails_before_any_call Sample.JSON_parse
             Sample.typeErrorMessage
             (Sample.scripted [Sample.replies Sample.catJson]) false
             (str "cat") (str "English") None (str "Minimalist") Sample.start
             eq_refl)).
  - apply (proj2 (@missing_key_fails_before_any_call Sample.JSON_parse
             Sample.typeErrorMessage
             (Sample.scripted [Sample.replies (str "cat")]) false
             (str "cat") (str "English") None (str "Minimalist") Sample.start
             eq_refl)).
Defined.

(** A first answer with a blank [art] is rejected and a second call
    follows; the art returned in the end is not blank. *)
Lemma art_is_validated_and_rejection_retries_witness :
  let run := generateAsciiArtWith Sample.JSON_parse Sample.typeErrorMessage (Sample.scripted Sample.blankFirst) false
               (str "cat") (str "English") Sample.key (str "Minimalist")
               Sample.start in
  fst run = inr {| art := str "=^.^="; text := None |}
  /\ trim (str "=^.^=") <> []
  /\ buildResult Sample.typeErrorMessage false
       (VObject [(str "art", VString (str "   "))])
     = inl (JsError (str "Invalid or empty ASCII art in response"))
  /\ networkCalls Sample.start + 0 + 2 <= networkCalls (snd run).
Proof.
  cbv zeta.
  pose proof (@art_is_validated_and_rejection_retries Sample.JSON_parse
                Sample.typeErrorMessage
                (Sample.scripted Sample.blankFirst)) as (A & B & C).
  assert (Bad : forall a,
             lookup (str "art") [(str "art", VString (str "   "))]
               = Some (VString a) -> trim a = []).
  { intros a H. vm_compute in H. injection H as <-. reflexivity. }
  split; [vm_compute; reflexivity|]. split; [|split].
  - apply (A false (str "cat") (str "English") Sample.key (str "Minimalist")
             Sample.start {| art := str "=^.^="; text := None |}
             (snd (generateAsciiArtWith Sample.JSON_parse Sample.typeErrorMessage (Sample.scripted Sample.blankFirst)
                     false (str "cat") (str "English") Sample.key
                     (str "Minimalist") Sample.start))).
    vm_compute. reflexivity.
  - apply (B false [(str "art", VString (str "   "))] Bad).
  - apply (C false (str "cat") (str "English") Sample.key (str "Minimalist")
             Sample.ai Sample.start 0 Sample.blankJson
             [(str "art", VString (str "   "))]
             (fst (generateAsciiArtWith Sample.JSON_parse Sample.typeErrorMessage (Sample.scripted Sample.blankFirst)
                     false (str "cat") (str "English") Sample.key
                     (str "Minimalist") Sample.start))).
    + reflexivity.
    + unfold maxRetries. lia.
    + intros j Hj. lia.
    + vm_compute. reflexivity.
    + vm_compute. reflexivity.
    + exact Bad.
    + vm_compute. reflexivity.
Defined.

(** The cat in a code block is read as the cat without the block. *)
Lemma response_text_processing_witness :
  startsWith fence (trim Sample.catJson) = false
  /\ codeBlock true Sample.catJson = Sample.fencedCat
  /\ readResponse Sample.JSON_parse Sample.typeErrorMessage false
       {| responseText := Some (codeBlock true Sample.catJson) |}
     = readResponse Sample.JSON_parse Sample.typeErrorMessage false
         {| responseText := Some Sample.catJson |}
  /\ readResponse Sample.JSON_parse Sample.typeErrorMessage false
       {| responseText := Some Sample.catJson |}
     = inr {| art := str "=^.^="; text := None |}
  /\ parseObject Sample.JSON_parse (unfence Sample.fencedCat)
     = spec_parseResponseText Sample.JSON_parse Sample.fencedCat.
Proof.
  split; [reflexivity|]. split; [reflexivity|]. split; [|split].
  - apply (proj2 (@response_text_processing Sample.JSON_parse
                    Sample.typeErrorMessage) false true Sample.catJson).
    reflexivity.
  - vm_compute. reflexivity.
  - apply (proj1 (@response_text_processing Sample.JSON_parse
                    Sample.typeErrorMessage) Sample.fencedCat).
Defined.

(** With the text flag on, an answer that carries a [text] gives a
    result with that [text]. *)
Lemma text_only_with_flag_and_upstream_text_witness :
  let run := generateAsciiArtWith Sample.JSON_parse Sample.typeErrorMessage
               (Sample.scripted [Sample.replies Sample.labelledJson]) true
               (str "cat") (str "English") Sample.key (str "Minimalist")
               Sample.start in
  let r := {| art := str "=^.^="; text := Some (VString (str "CAT")) |} in
  fst run = inr r
  /\ exists ai i t parsedData,
       getAi Sample.key = inr ai /\ i < maxRetries
       /\ Sample.scripted [Sample.replies Sample.labelledJson]
            (networkCalls Sample.start + i) ai
            (artRequest (artPrompt (str "cat")
                           (str "English") (str "Minimalist")))
          = inr {| responseText := Some t |}
       /\ parseObject Sample.JSON_parse (unfence t) = inr parsedData
       /\ getField Sample.typeErrorMessage parsedData (str "art")
          = inr (VString (art r))
       /\ forall v, text r = Some v <->
            true = true
            /\ getField Sample.typeErrorMessage parsedData (str "text") = inr v
            /\ truthy v = true.
Proof.
  cbv zeta. split; [vm_compute; reflexivity|].
  apply (proj1 (@text_only_with_flag_and_upstream_text Sample.JSON_parse
                  Sample.typeErrorMessage
                  (Sample.scripted [Sample.replies Sample.labelledJson]))
           true (str "cat") (str "English") Sample.key (str "Minimalist")
           Sample.start
           {| art := str "=^.^="; text := Some (VString (str "CAT")) |}
           (snd (generateAsciiArtWith Sample.JSON_parse Sample.typeErrorMessage
                   (Sample.scripted [Sample.replies Sample.labelledJson]) true
                   (str "cat") (str "English") Sample.key (str "Minimalist")
                   Sample.start))).
  vm_compute. reflexivity.
Defined.

(** One chunk arrives, then the stream breaks: the consumer sees the
    chunk, the error fragment, and the failure. *)
Lemma stream_failure_yields_error_fragment_then_throws_witness :
  Sample.brokenStream
    = deliver [Sample.chunk (str "A cat is a small ")]
        (StreamFail (JsError (str "503 overloaded")))
  /\ consume (Sample.scripted [inr Sample.brokenStream]) 3
       (streamDefinition (str "cat") (str "English") Sample.key) Sample.start
     = Some ([str "A cat is a small ";
              str "Error: Could not generate content for " +++ dq +++ str "cat"
              +++ dq
              +++ str ". 503 overloaded. Please check if your API key is correct."],
             Failed (JsError (str "503 overloaded")),
             streamFailed (JsError (str "503 overloaded"))
               (streamCalled Sample.ai (str "cat") (str "English") Sample.start)).
Proof.
  split; [reflexivity|].
  apply (@stream_failure_yields_error_fragment_then_throws
           (Sample.scripted [inr Sample.brokenStream])
           (str "cat") (str "English") Sample.key Sample.ai Sample.start
           [Sample.chunk (str "A cat is a small ")]
           (JsError (str "503 overloaded")) 3).
  - reflexivity.
  - reflexivity.
  - simpl. lia.
Defined.

(** An empty key: nothing is sent, by any of the three operations. *)
Lemma missing_key_is_a_configuration_error_witness :
  missing (Some []) = true
  /\ generateAsciiArtWith Sample.JSON_parse Sample.typeErrorMessage (Sample.scripted Sample.flaky) false
       (str "cat") (str "English") (Some []) (str "Minimalist") Sample.start
     = (inl (JsError (str "API Key is missing. Please provide a valid API key.")),
        Sample.start)
  /\ getRandomWord Sample.typeErrorMessage (Sample.scripted Sample.flaky)
       (str "English") (Some []) Sample.start
     = (inl (JsError (str "API Key is missing. Please provide a valid API key.")),
        Sample.start)
  /\ forall fuel,
       consume (Sample.scripted [inr Sample.sparseStream]) (S (S fuel))
         (streamDefinition (str "cat") (str "English") (Some [])) Sample.start
       = Some ([str "Error: API_KEY is not configured. Please set your API key to continue."],
               Completed, Sample.start).
Proof.
  split; [reflexivity|].
  apply (@missing_key_is_a_configuration_error Sample.JSON_parse
           Sample.typeErrorMessage
           (Sample.scripted Sample.flaky)
           (Sample.scripted [inr Sample.sparseStream])
           false (str "cat") (str "English") (Some []) (str "Minimalist")
           Sample.start).
  reflexivity.
Defined.

(** The claim as written fails: a response text with white space
    around it is not returned as it is, and the failure for a missing
    key carries no wrapping message. *)
Lemma getRandomWord_returns_response_text_counterexample :
  ~ (forall typeErrorMessage generateContent language apiKey ai w t,
       getAi apiKey = inr ai ->
       generateContent (networkCalls w) ai (randomWordRequest language)
         = inr {| responseText := Some t |} ->
       fst (getRandomWord typeErrorMessage generateContent language apiKey w)
         = inr t)
  /\ ~ (forall typeErrorMessage generateContent language apiKey w e,
       fst (getRandomWord typeErrorMessage generateContent language apiKey w)
         = inl e ->
       exists m, e = JsError (str "Could not get random word: " +++ m)).
Proof.
  split.
  - intros H.
    specialize (H Sample.typeErrorMessage
                  (Sample.scripted [Sample.replies (str " cat ")])
                  (str "English") Sample.key Sample.ai Sample.start (str " cat ")
                  eq_refl eq_refl).
    vm_compute in H. discriminate H.
  - intros H.
    destruct (H Sample.typeErrorMessage
                (Sample.scripted [Sample.replies (str "cat")])
                (str "English") None Sample.start
                (JsError (str "API Key is missing. Please provide a valid API key."))
                eq_refl) as [m E].
    vm_compute in E. discriminate E.
Qed.

(** On a concrete service: the text is trimmed, a failed request is
    wrapped, a missing key is not. *)
Lemma getRandomWord_is_single_shot_witness :
  fst (getRandomWord Sample.typeErrorMessage
         (Sample.scripted [Sample.replies (str " cat ")])
         (str "English") Sample.key Sample.start) = inr (str "cat")
  /\ fst (getRandomWord Sample.typeErrorMessage
            (Sample.scripted [Sample.offline])
            (str "English") Sample.key Sample.start)
     = inl (JsError (str "Could not get random word: fetch failed"))
  /\ network (snd (getRandomWord Sample.typeErrorMessage
                     (Sample.scripted [Sample.offline])
                     (str "English") Sample.key Sample.start))
     = [GenerateContent Sample.ai (randomWordRequest (str "English"))]
  /\ getRandomWord Sample.typeErrorMessage (Sample.scripted [Sample.offline])
       (str "English") None Sample.start
     = (inl (JsError (str "API Key is missing. Please provide a valid API key.")),
        Sample.start).
Proof.
  split; [|split; [|split]].
  - apply (proj1 (proj2 (proj2 (@getRandomWord_is_single_shot
             Sample.typeErrorMessage
             (Sample.scripted [Sample.replies (str " cat ")]))))
           (str "English") Sample.key Sample.ai Sample.start (str " cat ")
           eq_refl eq_refl).
  - apply (proj1 (proj2 (proj2 (proj2 (@getRandomWord_is_single_shot
             Sample.typeErrorMessage (Sample.scripted [Sample.offline])))))
           (str "English") Sample.key Sample.ai Sample.start
           (JsError (str "fetch failed")) eq_refl eq_refl).
  - apply (proj1 (proj2 (@getRandomWord_is_single_shot
             Sample.typeErrorMessage (Sample.scripted [Sample.offline])))
           (str "English") Sample.key Sample.ai Sample.start eq_refl).
  - apply (proj2 (proj2 (proj2 (proj2 (proj2 (@getRandomWord_is_single_shot
             Sample.typeErrorMessage (Sample.scripted [Sample.offline]))))))
           (str "English") None Sample.start eq_refl).
Defined.

(** A stream with empty chunks: only the two texts are seen. *)
Lemma stream_fragments_are_never_empty_witness :
  Sample.sparseStream
    = deliver [Sample.chunk (str "A cat "); {| responseText := None |};
               Sample.chunk []; Sample.chunk (str "purrs.")] StreamEnd
  /\ consume (Sample.scripted [inr Sample.sparseStream]) 5
       (streamDefinition (str "cat") (str "English") Sample.key) Sample.start
     = Some ([str "A cat "; str "purrs."], Completed,
             streamCalled Sample.ai (str "cat") (str "English") Sample.start)
  /\ Forall (fun f : jsstring => f <> []) [str "A cat "; str "purrs."].
Proof.
  pose proof (@stream_fragments_are_never_empty
                (Sample.scripted [inr Sample.sparseStream])) as (_ & A & B & _).
  assert (R : consume (Sample.scripted [inr Sample.sparseStream]) 5
                (streamDefinition (str "cat") (str "English") Sample.key)
                Sample.start
              = Some ([str "A cat "; str "purrs."], Completed,
                      streamCalled Sample.ai (str "cat") (str "English")
                        Sample.start)).
  { apply (B (str "cat") (str "English") Sample.key Sample.ai Sample.start
             [Sample.chunk (str "A cat "); {| responseText := None |};
              Sample.chunk []; Sample.chunk (str "purrs.")] 5).
    - reflexivity.
    - reflexivity.
    - simpl. lia. }
  split; [reflexivity|]. split; [exact R|].
  exact (A 5 (str "cat") (str "English") Sample.key Sample.start _ _ _ R).
Defined.

(** ** The ad banner component *)

(** X13. The task that shows the banner never rejects: whatever the
    import or the plugin does, the failure is caught and logged once
    under 'Error showing banner ad'. The task imports the module once,
    and either calls [showBanner] once, with the fixed ad unit, margin
    0 and test mode on, or does not call the plugin at all and logs why. *)
Theorem showBanner_task_never_rejects :
  forall p d,
    let d' := snd (AdBanner.showBanner p d) in
    fst (AdBanner.showBanner p d) = inr tt
    /\ ((exists options,
           AdBanner.events d' =
             AdBanner.events d ++ [AdBanner.Import; AdBanner.ShowBanner options]
           /\ AdBanner.adId options = str "ca-app-pub-1352679620358374/7288031910"
           /\ AdBanner.margin options = 0%Z
           /\ AdBanner.isTesting options = true
           /\ (AdBanner.errors d' = AdBanner.errors d
               \/ exists e,
                    AdBanner.errors d' =
                    AdBanner.errors d ++ [(str "Error showing banner ad", e)]))
        \/ (AdBanner.events d' = AdBanner.events d ++ [AdBanner.Import]
            /\ exists e,
                 AdBanner.errors d' =
                 AdBanner.errors d ++ [(str "Error showing banner ad", e)])).
Proof.
  intros p d. cbv zeta.
  unfold AdBanner.showBanner, AdBanner.tryLogging, AdBanner.andThen,
    AdBanner.importModule, AdBanner.pure, AdBanner.member.
  destruct (AdBanner.importAdMob p (length (AdBanner.events d)))
    as [e|[admob size pos]]; cbn.
  - split; [reflexivity|]. right. split; [reflexivity | now eexists].
  - destruct size as [size|]; cbn;
      [|split; [reflexivity|]; right; split; [reflexivity | now eexists]].
    destruct pos as [pos|]; cbn;
      [|split; [reflexivity|]; right; split; [reflexivity | now eexists]].
    destruct admob; cbn;
      [|split; [reflexivity|]; right; split; [reflexivity | now eexists]].
    destruct (AdBanner.showBannerOutcome p _ _) as [e|[]]; cbn;
      (split; [reflexivity|]); left; eexists;
      (split; [rewrite <- app_assoc; reflexivity|]);
      repeat (split; [reflexivity|]).
    + right. now eexists.
    + now left.
Qed.

(** X14. On a platform that is not native the effect starts nothing
    and returns no clean-up: no import, no plugin call, no log entry.
    On a native platform the clean-up does not depend on how showing
    went: when the module loads and exports the plugin, the unmount
    calls [hideBanner] once, also after a show that failed; and the
    task of the clean-up never rejects. *)
Theorem effect_guards_platform_and_cleanup_hides :
  forall p d,
    (AdBanner.isNativePlatform p = false ->
     AdBanner.mounted p d = d /\ AdBanner.unmounted p d = d)
    /\ (forall m,
        AdBanner.isNativePlatform p = true ->
        AdBanner.importAdMob p (length (AdBanner.events (AdBanner.mounted p d)))
          = inr m ->
        AdBanner.AdMob m = true ->
        AdBanner.events (AdBanner.unmounted p (AdBanner.mounted p d)) =
        AdBanner.events (AdBanner.mounted p d)
        ++ [AdBanner.Import; AdBanner.HideBanner])
    /\ fst (AdBanner.hideBanner p d) = inr tt.
Proof.
  intros p d. split; [|split].
  - intros W. unfold AdBanner.mounted, AdBanner.unmounted, AdBanner.effect.
    rewrite W. split; reflexivity.
  - intros m Na I A. unfold AdBanner.unmounted at 1, AdBanner.effect at 1.
    rewrite Na. cbn [AdBanner.cleanup AdBanner.run].
    unfold AdBanner.hideBanner, AdBanner.tryLogging, AdBanner.andThen,
      AdBanner.importModule, AdBanner.pure, AdBanner.member.
    rewrite I, A. cbn.
    destruct (AdBanner.hideBannerOutcome p _) as [e|[]]; cbn;
      now rewrite <- app_assoc.
  - unfold AdBanner.hideBanner, AdBanner.tryLogging, AdBanner.andThen,
      AdBanner.importModule, AdBanner.pure, AdBanner.member.
    destruct (AdBanner.importAdMob p (length (AdBanner.events d)))
      as [e|[[|] size pos]]; cbn; try reflexivity.
    destruct (AdBanner.hideBannerOutcome p _) as [e|[]]; reflexivity.
Qed.

(** In a browser nothing happens; on a phone whose plugin works the
    banner is shown and hidden; on a phone that cannot load the module
    both tasks only log. *)
Lemma effect_guards_platform_and_cleanup_hides_witness :
  AdBanner.isNativePlatform AdBanner.browser = false
  /\ AdBanner.mounted AdBanner.browser AdBanner.fresh = AdBanner.fresh
  /\ AdBanner.unmounted AdBanner.browser AdBanner.fresh = AdBanner.fresh
  /\ AdBanner.events
       (AdBanner.unmounted AdBanner.working
          (AdBanner.mounted AdBanner.working AdBanner.fresh))
     = AdBanner.events (AdBanner.mounted AdBanner.working AdBanner.fresh)
       ++ [AdBanner.Import; AdBanner.HideBanner]
  /\ AdBanner.unmounted AdBanner.unloadable
       (AdBanner.mounted AdBanner.unloadable AdBanner.fresh)
     = {| AdBanner.events := [AdBanner.Import; AdBanner.Import];
          AdBanner.errors :=
            [(str "Error showing banner ad",
              JsError (str "Failed to fetch dynamically imported module"));
             (str "Error hiding banner ad",
              JsError (str "Failed to fetch dynamically imported module"))] |}.
Proof.
  split; [reflexivity|].
  pose proof (proj1 (effect_guards_platform_and_cleanup_hides
                       AdBanner.browser AdBanner.fresh) eq_refl) as [A B].
  split; [exact A|]. split; [exact B|]. split.
  - apply (proj1 (proj2 (effect_guards_platform_and_cleanup_hides
                           AdBanner.working AdBanner.fresh))
             {| AdBanner.AdMob := true;
                AdBanner.AdSize_BANNER := Some (VString (str "BANNER"));
                AdBanner.AdPosition_BOTTOM_CENTER :=
                  Some (VString (str "BOTTOM_CENTER")) |});
      reflexivity.
  - vm_compute. reflexivity.
Defined.

(** ** The further properties on a concrete service *)


(** A block with two spaces inside, and the cat in two blocks. *)
Lemma empty_or_nested_code_block_is_rejected_witness :
  parseObject Sample.JSON_parse (unfence (codeBlock true (str "  ")))
  = inl (JsError (str "Response is not a valid JSON object"))
  /\ parseObject Sample.JSON_parse
       (unfence (codeBlock false (codeBlock true Sample.catJson)))
     = inl (JsError (str "Response is not a valid JSON object")).
Proof.
  split.
  - apply (proj1 (empty_or_nested_code_block_is_rejected Sample.JSON_parse)
             true (str "  ")).
    repeat constructor.
  - apply (proj2 (empty_or_nested_code_block_is_rejected Sample.JSON_parse)
             false true Sample.catJson).
Defined.

(** The flaky service is called three times with one request. *)
Lemma generate_makes_one_to_three_identical_calls_witness :
  let run := generateAsciiArtWith Sample.JSON_parse Sample.typeErrorMessage
               (Sample.scripted Sample.flaky) false (str "cat") (str "English")
               Sample.key (str "Minimalist") Sample.start in
  exists k,
    1 <= k <= maxRetries
    /\ network (snd run) =
       network Sample.start
       ++ repeat (GenerateContent Sample.ai
                    (artRequest (artPrompt (str "cat") (str "English")
                                   (str "Minimalist")))) k
    /\ (forall e, fst run = inl e -> k = maxRetries).
Proof.
  cbv zeta.
  apply (@generate_makes_one_to_three_identical_calls Sample.JSON_parse
           Sample.typeErrorMessage (Sample.scripted Sample.flaky) false
           (str "cat") (str "English") Sample.key (str "Minimalist") Sample.ai
           Sample.start).
  - reflexivity.
  - vm_compute. reflexivity.
Defined.

(** The broken service: the one error, after three calls. *)
Lemma generate_fails_in_two_ways_only_witness :
  let run := generateAsciiArtWith Sample.JSON_parse Sample.typeErrorMessage
               (Sample.scripted Sample.broken) false (str "cat") (str "English")
               Sample.key (str "Minimalist") Sample.start in
  let e := JsError (str "Could not generate ASCII art after 3 attempts: Invalid or empty ASCII art in response") in
  fst run = inl e
  /\ ((missing Sample.key = true
       /\ e = JsError (str "API Key is missing. Please provide a valid API key.")
       /\ snd run = Sample.start)
      \/ (missing Sample.key = false
          /\ (exists m,
                e = JsError (str "Could not generate ASCII art after 3 attempts: "
                             +++ m))
          /\ networkCalls (snd run) = networkCalls Sample.start + 3))
  /\ e <> JsError (str "All retry attempts failed").
Proof.
  cbv zeta. split; [vm_compute; reflexivity|].
  apply (@generate_fails_in_two_ways_only Sample.JSON_parse
           Sample.typeErrorMessage (Sample.scripted Sample.broken) false
           (str "cat") (str "English") Sample.key (str "Minimalist")
           Sample.start).
  vm_compute. reflexivity.
Defined.

(** The console after the broken service. *)
Lemma generate_logs_one_warning_per_failed_attempt_witness :
  console (snd (generateAsciiArtWith Sample.JSON_parse Sample.typeErrorMessage
                  (Sample.scripted Sample.broken) false (str "cat")
                  (str "English") Sample.key (str "Minimalist") Sample.start))
  = [ConsoleWarn (str "Attempt 1/3 failed:") (str "fetch failed");
     ConsoleWarn (str "Attempt 2/3 failed:")
       (str "Response is not a valid JSON object");
     ConsoleWarn (str "Attempt 3/3 failed:")
       (str "Invalid or empty ASCII art in response");
     ConsoleError (str "All retry attempts failed for ASCII art generation") None].
Proof.
  assert (F : forall j e,
             nth_error
               [JsError (str "fetch failed");
                JsError (str "Response is not a valid JSON object");
                JsError (str "Invalid or empty ASCII art in response")] j
               = Some e ->
             attemptOutcome Sample.JSON_parse Sample.typeErrorMessage
               (Sample.scripted Sample.broken) false Sample.ai
               (artPrompt (str "cat") (str "English") (str "Minimalist"))
               (networkCalls Sample.start + j) = inl e).
  { intros j e H. destruct j as [|[|[|j]]].
    - injection H as <-. vm_compute. reflexivity.
    - injection H as <-. vm_compute. reflexivity.
    - injection H as <-. vm_compute. reflexivity.
    - destruct j; discriminate H. }
  apply (proj2 (@generate_logs_one_warning_per_failed_attempt Sample.JSON_parse
                  Sample.typeErrorMessage (Sample.scripted Sample.broken) false
                  (str "cat") (str "English") Sample.key (str "Minimalist")
                  Sample.ai Sample.start _ eq_refl F)).
  reflexivity.
Defined.

(** The sparse stream: one call, two fragments, all the text. *)
Lemma stream_makes_exactly_one_call_witness :
  exists w',
    consume (Sample.scripted [inr Sample.sparseStream]) 5
      (streamDefinition (str "cat") (str "English") Sample.key) Sample.start
    = Some ([str "A cat "; str "purrs."], Completed, w')
    /\ network w' =
       [GenerateContentStream Sample.ai
          (definitionRequest (str "cat") (str "English"))].
Proof.
  eexists. split; [vm_compute; reflexivity|].
  apply (@stream_makes_exactly_one_call
           (Sample.scripted [inr Sample.sparseStream])
           (str "cat") (str "English") Sample.key Sample.ai Sample.start 5
           [str "A cat "; str "purrs."] Completed).
  - reflexivity.
  - vm_compute. reflexivity.
Defined.

Lemma stream_request_rejected_witness :
  consume (Sample.scripted [inl (JsError (str "429 quota exceeded"))]) 2
    (streamDefinition (str "cat") (str "English") Sample.key) Sample.start
  = Some ([errorFragment (str "cat") (str "429 quota exceeded")],
          Failed (JsError (str "429 quota exceeded")),
          streamFailed (JsError (str "429 quota exceeded"))
            (streamCalled Sample.ai (str "cat") (str "English") Sample.start)).
Proof.
  apply (@stream_request_rejected
           (Sample.scripted [inl (JsError (str "429 quota exceeded"))])
           (str "cat") (str "English") Sample.key Sample.ai Sample.start
           (JsError (str "429 quota exceeded")) 2).
  - reflexivity.
  - reflexivity.
  - lia.
Defined.

Lemma stream_fragments_carry_all_the_text_witness :
  consume (Sample.scripted [inr Sample.sparseStream]) 5
    (streamDefinition (str "cat") (str "English") Sample.key) Sample.start
  = Some ([str "A cat "; str "purrs."], Completed,
          streamCalled Sample.ai (str "cat") (str "English") Sample.start)
  /\ concat [str "A cat "; str "purrs."] = str "A cat purrs."
  /\ concat [str "A cat "; str "purrs."]
     = concat (map chunkText
                 [Sample.chunk (str "A cat "); {| responseText := None |};
                  Sample.chunk []; Sample.chunk (str "purrs.")]).
Proof.
  assert (R : consume (Sample.scripted [inr Sample.sparseStream]) 5
                (streamDefinition (str "cat") (str "English") Sample.key)
                Sample.start
              = Some ([str "A cat "; str "purrs."], Completed,
                      streamCalled Sample.ai (str "cat") (str "English")
                        Sample.start))
    by (vm_compute; reflexivity).
  split; [exact R|]. split; [reflexivity|].
  apply (proj1 (@stream_fragments_carry_all_the_text
                  (Sample.scripted [inr Sample.sparseStream])
                  (str "cat") (str "English") Sample.key Sample.ai Sample.start
                  [Sample.chunk (str "A cat "); {| responseText := None |};
                   Sample.chunk []; Sample.chunk (str "purrs.")] 5
                  [str "A cat "; str "purrs."] Completed
                  (streamCalled Sample.ai (str "cat") (str "English") Sample.start)
                  eq_refl R) eq_refl).
Defined.

(** A response of blanks gives the empty word. *)
Lemma getRandomWord_returns_a_trimmed_word_witness :
  fst (getRandomWord Sample.typeErrorMessage
         (Sample.scripted [Sample.replies (str "   ")])
         (str "English") Sample.key Sample.start) = inr []
  /\ trimStart (str "cat") = str "cat" /\ trimEnd (str "cat") = str "cat".
Proof.
  pose proof (@getRandomWord_returns_a_trimmed_word Sample.typeErrorMessage
                (Sample.scripted [Sample.replies (str " cat ")])) as [A _].
  pose proof (@getRandomWord_returns_a_trimmed_word Sample.typeErrorMessage
                (Sample.scripted [Sample.replies (str "   ")])) as [_ B].
  split.
  - apply (B (str "English") Sample.key Sample.ai Sample.start (str "   "));
      [reflexivity | reflexivity | repeat constructor].
  - apply (A (str "English") Sample.key Sample.start (str "cat")).
    vm_compute. reflexivity.
Defined.

Lemma style_directive_ignores_topic_unless_abstract_witness :
  styleInstructionFor (str "Blocky") (str "cat")
  = styleInstructionFor (str "Blocky") (str "dog").
Proof.
  apply (@style_directive_ignores_topic_unless_abstract
           (str "Blocky") (str "cat") (str "dog")).
  reflexivity.
Defined.

(** The name in lower case is not the name of the switch. *)
Lemma unknown_style_falls_back_to_minimalist_witness :
  existsb (JsString.eqb (str "detailed")) knownStyles = false
  /\ styleInstructionFor (str "detailed") (str "cat")
     = styleInstructionFor (str "Minimalist") (str "cat").
Proof.
  split; [vm_compute; reflexivity|].
  apply (proj1 (unknown_style_falls_back_to_minimalist (str "detailed") (str "cat"))).
  vm_compute. reflexivity.
Defined.

Lemma white_space_around_the_response_is_ignored_witness :
  readResponse Sample.JSON_parse Sample.typeErrorMessage false
    {| responseText := Some (str "  " +++ Sample.fencedCat +++ nl) |}
  = readResponse Sample.JSON_parse Sample.typeErrorMessage false
      {| responseText := Some Sample.fencedCat |}.
Proof.
  apply (@white_space_around_the_response_is_ignored Sample.JSON_parse
           Sample.typeErrorMessage false (str "  ") nl Sample.fencedCat);
    repeat constructor.
Defined.

(** An art that starts with two spaces comes back with them, and
    the text of the response is left out. *)
Lemma valid_art_is_returned_unchanged_witness :
  let reply := str "{" +++ Sample.member (str "art") (str "  =^.^=  ") +++ str ","
               +++ Sample.member (str "text") (str "CAT") +++ str "}" in
  let parse := fun s : jsstring =>
                 if JsString.eqb s reply
                 then inr (VObject [(str "art", VString (str "  =^.^=  "));
                                    (str "text", VString (str "CAT"))])
                 else inl (JsError (str "Unexpected token in JSON")) in
  fst (generateAsciiArt parse Sample.typeErrorMessage
         (Sample.scripted [Sample.replies reply])
         (str "cat") (str "English") Sample.key (str "Minimalist") Sample.start)
  = inr {| art := str "  =^.^=  "; text := None |}.
Proof.
  cbv zeta.
  apply (@valid_art_is_returned_unchanged _ Sample.typeErrorMessage
           (Sample.scripted
              [Sample.replies
                 (str "{" +++ Sample.member (str "art") (str "  =^.^=  ")
                  +++ str "," +++ Sample.member (str "text") (str "CAT")
                  +++ str "}")])
           (str "cat") (str "English") Sample.key (str "Minimalist") Sample.ai
           Sample.start
           (str "{" +++ Sample.member (str "art") (str "  =^.^=  ")
            +++ str "," +++ Sample.member (str "text") (str "CAT") +++ str "}")
           [(str "art", VString (str "  =^.^=  ")); (str "text", VString (str "CAT"))]
           (str "  =^.^=  ")).
  - reflexivity.
  - reflexivity.
  - vm_compute. reflexivity.
  - reflexivity.
  - vm_compute. discriminate.
Defined.
